(** * semantic-fs: the path guard and the patch engine of [src/fs.ts]

    A shallow embedding of [validatePath] and [applyFileEdits] together
    with the JavaScript string primitives and the POSIX flavour of
    [node:path] that they call.

    Conventions.
    - A JavaScript string is a [string]; each [ascii] stands for one code
      unit in the range U+0000..U+00FF.
    - Asynchronous functions are computations in the monad [IO], which
      threads the filesystem ([World]) and can throw ([exn]).
    - [os.homedir()] and [process.cwd()] are fields of a [Host]. *)

From Stdlib Require Import ZArith String Ascii List Bool Lia.
From stdpp Require Import gmap strings.
Import ListNotations.

Local Open Scope string_scope.
Local Open Scope list_scope.

(** ** JavaScript strings *)

Module Js.

Definition LF : ascii := "010"%char.
Definition CR : ascii := "013"%char.

(** [s.startsWith(p)] *)
Definition startsWith (s p : string) : bool := String.prefix p s.

(** [s.slice(n)] for [0 <= n] *)
Fixpoint drop (n : nat) (s : string) : string :=
  match n, s with
  | O, _ => s
  | S _, EmptyString => EmptyString
  | S n', String _ s' => drop n' s'
  end.

(** [s.slice(0, n)] for [0 <= n] *)
Fixpoint take (n : nat) (s : string) : string :=
  match n, s with
  | O, _ => EmptyString
  | S _, EmptyString => EmptyString
  | S n', String c s' => String c (take n' s')
  end.

(** [s.indexOf(t)], with [None] for [-1] *)
Fixpoint indexOf (s t : string) : option nat :=
  if startsWith s t then Some O
  else match s with
       | EmptyString => None
       | String _ s' => option_map S (indexOf s' t)
       end.

(** [s.includes(t)] *)
Definition includes (s t : string) : bool :=
  match indexOf s t with Some _ => true | None => false end.

(** [s.endsWith("/")]-style test on the last code unit *)
Fixpoint lastIs (c : ascii) (s : string) : bool :=
  match s with
  | EmptyString => false
  | String d EmptyString => Ascii.eqb d c
  | String _ s' => lastIs c s'
  end.

(** [GetSubstitution] of ECMA-262 for a string pattern: there are no
    captures, so only [$$], [$&], [$`] and [$'] are special. *)
Fixpoint getSubstitution (matched before after template : string) : string :=
  match template with
  | EmptyString => EmptyString
  | String c rest =>
      if Ascii.eqb c "$"%char then
        match rest with
        | String d rest' =>
            if Ascii.eqb d "$"%char then
              String "$"%char (getSubstitution matched before after rest')
            else if Ascii.eqb d "&"%char then
              matched +:+ getSubstitution matched before after rest'
            else if Ascii.eqb d "`"%char then
              before +:+ getSubstitution matched before after rest'
            else if Ascii.eqb d "'"%char then
              after +:+ getSubstitution matched before after rest'
            else String c (getSubstitution matched before after rest)
        | EmptyString => String c EmptyString
        end
      else String c (getSubstitution matched before after rest)
  end.

(** [s.replace(pattern, replacement)] with both arguments strings: the
    first occurrence only, the replacement read as a template. *)
Definition replace (s pattern replacement : string) : string :=
  match indexOf s pattern with
  | None => s
  | Some pos =>
      let before := take pos s in
      let after := drop (pos + String.length pattern) s in
      before +:+ getSubstitution pattern before after replacement +:+ after
  end.

(** [s.split(sep)] for a separator of one code unit *)
Fixpoint split (sep : ascii) (s : string) : list string :=
  match s with
  | EmptyString => [EmptyString]
  | String c s' =>
      if Ascii.eqb c sep then EmptyString :: split sep s'
      else match split sep s' with
           | h :: t => String c h :: t
           | [] => [String c EmptyString]
           end
  end.

(** [l.join(sep)] *)
Fixpoint join (sep : string) (l : list string) : string :=
  match l with
  | [] => EmptyString
  | [x] => x
  | x :: rest => x +:+ sep +:+ join sep rest
  end.

(** [WhiteSpace] and [LineTerminator] code units below U+0100: the set
    shared by [trim], [trimStart] and the regular expression class
    [\s]. *)
Definition isWhiteSpace (c : ascii) : bool :=
  let n := nat_of_ascii c in
  ((9 <=? n)%nat && (n <=? 13)%nat) || (n =? 32)%nat || (n =? 160)%nat.

(** [s.match(/^\s*/)?.[0] || ""] *)
Fixpoint leadingWhiteSpace (s : string) : string :=
  match s with
  | EmptyString => EmptyString
  | String c s' =>
      if isWhiteSpace c then String c (leadingWhiteSpace s') else EmptyString
  end.

(** [s.trimStart()] *)
Fixpoint trimStart (s : string) : string :=
  match s with
  | EmptyString => EmptyString
  | String c s' => if isWhiteSpace c then trimStart s' else s
  end.

(** [s.trimEnd()] *)
Fixpoint trimEnd (s : string) : string :=
  match s with
  | EmptyString => EmptyString
  | String c s' =>
      match trimEnd s' with
      | EmptyString => if isWhiteSpace c then EmptyString else String c EmptyString
      | t => String c t
      end
  end.

(** [s.trim()] *)
Definition trim (s : string) : string := trimEnd (trimStart s).

(** [" ".repeat(n)] *)
Fixpoint repeat (s : string) (n : nat) : string :=
  match n with
  | O => EmptyString
  | S n' => s +:+ repeat s n'
  end.

(** [s.toLowerCase()] on code units below U+0100 *)
Definition lowerUnit (c : ascii) : ascii :=
  let n := nat_of_ascii c in
  if ((65 <=? n)%nat && (n <=? 90)%nat)
     || ((192 <=? n)%nat && (n <=? 222)%nat && negb (n =? 215)%nat)
  then ascii_of_nat (n + 32) else c.

Fixpoint toLowerCase (s : string) : string :=
  match s with
  | EmptyString => EmptyString
  | String c s' => String (lowerUnit c) (toLowerCase s')
  end.

(** [l.slice(i, j)] on arrays, for [0 <= i] and [0 <= j] *)
Definition slice {A} (l : list A) (i j : nat) : list A :=
  firstn (j - i) (skipn i l).

(** [l.splice(i, n, ...items)]: the array after the call *)
Definition splice {A} (l : list A) (i n : nat) (items : list A) : list A :=
  firstn i l ++ items ++ skipn (i + n) l.

(** [l.map((x, j) => f(x, j))] *)
Fixpoint mapi_from {A B} (f : A -> nat -> B) (j : nat) (l : list A) : list B :=
  match l with
  | [] => []
  | x :: rest => f x j :: mapi_from f (S j) rest
  end.

Definition mapi {A B} (f : A -> nat -> B) (l : list A) : list B :=
  mapi_from f 0 l.

End Js.

Arguments Js.startsWith : simpl never.

(** ** [node:path], POSIX flavour *)

Module path.

(** [normalizeString(path, allowAboveRoot, "/")], read segment by
    segment; [res] is the stack of kept segments, innermost first. *)
Fixpoint normalizeSegments (allowAboveRoot : bool) (segs res : list string)
  : list string :=
  match segs with
  | [] => rev res
  | seg :: rest =>
      if String.eqb seg "" || String.eqb seg "." then
        normalizeSegments allowAboveRoot rest res
      else if String.eqb seg ".." then
        match res with
        | top :: res' =>
            if String.eqb top ".." then
              normalizeSegments allowAboveRoot rest
                (if allowAboveRoot then ".." :: res else res)
            else normalizeSegments allowAboveRoot rest res'
        | [] =>
            normalizeSegments allowAboveRoot rest
              (if allowAboveRoot then [".."] else [])
        end
      else normalizeSegments allowAboveRoot rest (seg :: res)
  end.

Definition normalizeString (p : string) (allowAboveRoot : bool) : string :=
  Js.join "/" (normalizeSegments allowAboveRoot (Js.split "/"%char p) []).

Definition isAbsolute (p : string) : bool := Js.startsWith p "/".

Definition normalize (p : string) : string :=
  if String.eqb p "" then "."
  else
    let isAbs := isAbsolute p in
    let trailingSeparator := Js.lastIs "/"%char p in
    let q := normalizeString p (negb isAbs) in
    if String.eqb q "" then
      if isAbs then "/" else if trailingSeparator then "./" else "."
    else
      let q := if trailingSeparator then q +:+ "/" else q in
      if isAbs then "/" +:+ q else q.

(** The right-to-left loop of [resolve]: [args] is read from its head,
    so the caller passes the arguments reversed, the working directory
    last. *)
Fixpoint resolveLoop (args : list string) (resolvedPath : string)
  : string * bool :=
  match args with
  | [] => (resolvedPath, false)
  | p :: rest =>
      if String.eqb p "" then resolveLoop rest resolvedPath
      else
        let resolvedPath := p +:+ "/" +:+ resolvedPath in
        if isAbsolute p then (resolvedPath, true)
        else resolveLoop rest resolvedPath
  end.

Definition resolve (cwd : string) (args : list string) : string :=
  let '(resolvedPath, resolvedAbsolute) := resolveLoop (rev args ++ [cwd]) "" in
  let resolvedPath := normalizeString resolvedPath (negb resolvedAbsolute) in
  if resolvedAbsolute then "/" +:+ resolvedPath
  else if String.eqb resolvedPath "" then "." else resolvedPath.

Definition join (args : list string) : string :=
  match filter (fun a => negb (String.eqb a "")) args with
  | [] => "."
  | parts => normalize (Js.join "/" parts)
  end.

(** The scan of [dirname]: [i] runs from [path.length - 1] down to 1. *)
Fixpoint dirnameScan (p : string) (i : nat) (matchedSlash : bool) : option nat :=
  match i with
  | O => None
  | S i' =>
      match String.get i p with
      | Some c =>
          if Ascii.eqb c "/"%char then
            if matchedSlash then dirnameScan p i' true else Some i
          else dirnameScan p i' false
      | None => dirnameScan p i' matchedSlash
      end
  end.

Definition dirname (p : string) : string :=
  if String.eqb p "" then "."
  else
    let hasRoot := isAbsolute p in
    match dirnameScan p (String.length p - 1) true with
    | None => if hasRoot then "/" else "."
    | Some e => if hasRoot && (e =? 1)%nat then "//" else Js.take e p
    end.

End path.

(** ** The filesystem and asynchronous computations *)

(** The calls into the filesystem that the two functions make. *)
Inductive FsCall : Type :=
| CallRealpath (p : string)          (* [realpath(p)] of [node:fs/promises] *)
| CallText (p : string)              (* [Bun.file(p).text()] *)
| CallWrite (p data : string).       (* [Bun.write(p, data)] *)

(** The part of the world the functions observe: what [realpath] answers
    for each path (no entry when it rejects, as for a path that does not
    exist), the text of each file, and the log of the calls made so far,
    oldest first. *)
Record World : Type := mkWorld {
  realpathOf : gmap string string;
  files : gmap string string;
  calls : list FsCall
}.

(** What can be thrown: [new Error(message)], or the rejection of a
    filesystem call. *)
Inductive exn : Type :=
| Error (message : string)
| SystemError (syscall p : string).

Definition IO (A : Type) : Type := World -> (exn + A) * World.

Definition ret {A} (a : A) : IO A := fun w => (inr a, w).

Definition throw {A} (e : exn) : IO A := fun w => (inl e, w).

Definition bind {A B} (m : IO A) (k : A -> IO B) : IO B :=
  fun w => match m w with
           | (inr a, w') => k a w'
           | (inl e, w') => (inl e, w')
           end.

(** [try { body } catch (error) { handler }] *)
Definition tryCatch {A} (body : IO A) (handler : exn -> IO A) : IO A :=
  fun w => match body w with
           | (inl e, w') => handler e w'
           | r => r
           end.

Notation "'let*' x := m 'in' k" := (bind m (fun x => k))
  (at level 10, x name, m at level 100, k at level 200).

Definition logCall (c : FsCall) (w : World) : World :=
  mkWorld (realpathOf w) (files w) (calls w ++ [c]).

Definition realpath (p : string) : IO string :=
  fun w => match realpathOf w !! p with
           | Some r => (inr r, logCall (CallRealpath p) w)
           | None => (inl (SystemError "realpath" p), logCall (CallRealpath p) w)
           end.

Definition readText (p : string) : IO string :=
  fun w => match files w !! p with
           | Some t => (inr t, logCall (CallText p) w)
           | None => (inl (SystemError "open" p), logCall (CallText p) w)
           end.

(** [Bun.write(p, data)] replaces the whole text of [p]; it is taken to
    succeed. *)
Definition write (p data : string) : IO unit :=
  fun w => (inr tt,
            mkWorld (realpathOf w) (<[p := data]> (files w))
                    (calls w ++ [CallWrite p data])).

(** The error classes of the specification, read off the messages the
    code throws. *)
Inductive ErrorClass : Type :=
| AccessDenied | NotFound | MatchNotFound | ArgumentInvalid.

Definition classify (e : exn) : option ErrorClass :=
  match e with
  | Error m =>
      if Js.startsWith m "Access denied" then Some AccessDenied
      else if Js.startsWith m "Parent directory does not exist" then Some NotFound
      else if Js.startsWith m "Could not find exact match for edit" then Some MatchNotFound
      else if Js.startsWith m "Invalid arguments for" then Some ArgumentInvalid
      else None
  | SystemError _ _ => None
  end.

(** ** Utility functions of [fs.ts] *)

Definition normalizePath (p : string) : string :=
  Js.toLowerCase (path.normalize p).

(** [text.replace(/\r\n/g, "\n")] *)
Fixpoint normalizeLineEndings (text : string) : string :=
  match text with
  | EmptyString => EmptyString
  | String c rest =>
      match rest with
      | String d rest' =>
          if Ascii.eqb c Js.CR && Ascii.eqb d Js.LF
          then String Js.LF (normalizeLineEndings rest')
          else String c (normalizeLineEndings rest)
      | EmptyString => String c EmptyString
      end
  end.

(** [os.homedir()] and [process.cwd()] *)
Record Host : Type := mkHost { homedir : string; cwd : string }.

Section PathGuard.

Variable host : Host.

Definition expandHome (filepath : string) : string :=
  if Js.startsWith filepath "~/" || String.eqb filepath "~"
  then path.join [homedir host; Js.drop 1 filepath]
  else filepath.

(** The constant [absolute] of [validatePath]. *)
Definition absolute (requestedPath : string) : string :=
  let expandedPath := expandHome requestedPath in
  if path.isAbsolute expandedPath
  then path.resolve (cwd host) [expandedPath]
  else path.resolve (cwd host) [cwd host; expandedPath].

(** [allowedDirectories.some((dir) => normalized.startsWith(dir))]: the
    test behind [isAllowed], [isRealPathAllowed] and [isParentAllowed]. *)
Definition isAllowed (normalized : string) (allowedDirectories : list string) : bool :=
  existsb (fun dir => Js.startsWith normalized dir) allowedDirectories.

(** The inner [try]/[catch] of [validatePath], for a path that may not
    exist yet. *)
Definition validateParent (absolute : string) (allowedDirectories : list string)
  : IO string :=
  let parentDir := path.dirname absolute in
  tryCatch
    (let* realParentPath := realpath parentDir in
     let normalizedParent := normalizePath realParentPath in
     let isParentAllowed := isAllowed normalizedParent allowedDirectories in
     if negb isParentAllowed then
       throw (Error "Access denied - parent directory outside allowed directories")
     else ret absolute)
    (fun _ => throw (Error ("Parent directory does not exist: " +:+ parentDir))).

Definition validatePath (requestedPath : string) (allowedDirectories : list string)
  : IO string :=
  let absolute := absolute requestedPath in
  let normalizedRequested := normalizePath absolute in
  if negb (isAllowed normalizedRequested allowedDirectories) then
    throw (Error ("Access denied - path outside allowed directories: "
                  +:+ absolute +:+ " not in "
                  +:+ Js.join ", " allowedDirectories))
  else
    tryCatch
      (let* realPath := realpath absolute in
       let normalizedReal := normalizePath realPath in
       let isRealPathAllowed := isAllowed normalizedReal allowedDirectories in
       if negb isRealPathAllowed then
         throw (Error "Access denied - symlink target outside allowed directories")
       else ret realPath)
      (fun error => validateParent absolute allowedDirectories).

(** The map of [loadAllowedDirectories] in [embeddings.ts]: how each
    configured root reaches [validatePath]. *)
Definition normalizeRoot (dir : string) : string :=
  normalizePath (path.resolve (cwd host) [expandHome dir]).

End PathGuard.

(** ** The patch engine *)

Record Edit : Type := mkEdit { oldText : string; newText : string }.

Definition nl : string := String Js.LF EmptyString.

(** A string is truthy when it is not empty. *)
Definition truthy (s : string) : bool := negb (String.eqb s "").

(** [oldLines.every((oldLine, j) => oldLine.trim() === potentialMatch[j].trim())];
    the loop bound keeps [potentialMatch] as long as [oldLines], so the
    lookup never misses. *)
Definition isMatch (oldLines potentialMatch : list string) : bool :=
  forallb (fun b : bool => b)
    (Js.mapi (fun oldLine j =>
                match nth_error potentialMatch j with
                | Some contentLine => String.eqb (Js.trim oldLine) (Js.trim contentLine)
                | None => false
                end) oldLines).

(** The window loop [for (let i = 0; i <= contentLines.length - oldLines.length; i++)]
    from index [i] with [n] iterations left: the first matching index. *)
Fixpoint findMatch (oldLines contentLines : list string) (i n : nat) : option nat :=
  match n with
  | O => None
  | S n' =>
      let potentialMatch := Js.slice contentLines i (i + length oldLines) in
      if isMatch oldLines potentialMatch then Some i
      else findMatch oldLines contentLines (S i) n'
  end.

(** The constant [newLines]: the replacement lines with their indentation
    reconciled. *)
Definition newLines (originalIndent : string) (oldLines : list string)
  (normalizedNew : string) : list string :=
  Js.mapi (fun line j =>
             if (j =? 0)%nat then originalIndent +:+ Js.trimStart line
             else
               let oldIndent :=
                 match nth_error oldLines j with
                 | Some oldLine => Js.leadingWhiteSpace oldLine
                 | None => ""
                 end in
               let newIndent := Js.leadingWhiteSpace line in
               if truthy oldIndent && truthy newIndent then
                 let relativeIndent :=
                   (Z.of_nat (String.length newIndent)
                    - Z.of_nat (String.length oldIndent))%Z in
                 originalIndent
                 +:+ Js.repeat " " (Z.to_nat (Z.max 0 relativeIndent))
                 +:+ Js.trimStart line
               else line)
          (Js.split Js.LF normalizedNew).

(** One iteration of [for (const edit of edits)]: the next value of
    [modifiedContent], or the error thrown. *)
Definition applyEdit (modifiedContent : string) (edit : Edit) : exn + string :=
  let normalizedOld := normalizeLineEndings (oldText edit) in
  let normalizedNew := normalizeLineEndings (newText edit) in
  if Js.includes modifiedContent normalizedOld then
    inr (Js.replace modifiedContent normalizedOld normalizedNew)
  else
    let oldLines := Js.split Js.LF normalizedOld in
    let contentLines := Js.split Js.LF modifiedContent in
    match findMatch oldLines contentLines 0
            (length contentLines + 1 - length oldLines) with
    | Some i =>
        let originalIndent := Js.leadingWhiteSpace (nth i contentLines "") in
        inr (Js.join nl
               (Js.splice contentLines i (length oldLines)
                  (newLines originalIndent oldLines normalizedNew)))
    | None =>
        inl (Error ("Could not find exact match for edit:" +:+ nl +:+ oldText edit))
    end.

(** The whole loop over [edits]. *)
Fixpoint applyEdits (modifiedContent : string) (edits : list Edit) : exn + string :=
  match edits with
  | [] => inr modifiedContent
  | edit :: rest =>
      match applyEdit modifiedContent edit with
      | inr next => applyEdits next rest
      | inl e => inl e
      end
  end.

Definition liftResult {A} (r : exn + A) : IO A := fun w => (r, w).

Definition applyFileEdits (filePath : string) (edits : list Edit) (dryRun : bool)
  : IO string :=
  let* raw := readText filePath in
  let content := normalizeLineEndings raw in
  let* modifiedContent := liftResult (applyEdits content edits) in
  let* written := (if negb dryRun then write filePath modifiedContent else ret tt) in
  ret modifiedContent.

(** ** Vocabulary of the specification *)

(** The tier that settles an edit against the current document. *)
Inductive Tier : Type :=
| Exact
| Fuzzy (i : nat)
| NoTier.

Definition tierOf (modifiedContent : string) (edit : Edit) : Tier :=
  let normalizedOld := normalizeLineEndings (oldText edit) in
  if Js.includes modifiedContent normalizedOld then Exact
  else
    match findMatch (Js.split Js.LF normalizedOld) (Js.split Js.LF modifiedContent) 0
            (length (Js.split Js.LF modifiedContent) + 1
             - length (Js.split Js.LF normalizedOld)) with
    | Some i => Fuzzy i
    | None => NoTier
    end.

(** Every edit of the list is settled by the exact tier, each against the
    document its predecessors left. *)
Fixpoint allExact (modifiedContent : string) (edits : list Edit) : bool :=
  match edits with
  | [] => true
  | edit :: rest =>
      match tierOf modifiedContent edit, applyEdit modifiedContent edit with
      | Exact, inr next => allExact next rest
      | _, _ => false
      end
  end.

(** The inverse edit list: each pair swapped, the order reversed. *)
Definition swapEdit (edit : Edit) : Edit := mkEdit (newText edit) (oldText edit).

Definition inverseEdits (edits : list Edit) : list Edit := rev (map swapEdit edits).

(** The text holds a dollar sign, the character that starts a replacement
    pattern of [String.prototype.replace]. *)
Fixpoint hasDollar (s : string) : bool :=
  match s with
  | EmptyString => false
  | String c s' => Ascii.eqb c "$"%char || hasDollar s'
  end.

(** The edits can be undone one by one: each is settled by the exact tier,
    its texts hold no replacement pattern, and in the document it leaves
    its new text occurs first at the place where it was put. *)
Fixpoint reversible (modifiedContent : string) (edits : list Edit) : bool :=
  match edits with
  | [] => true
  | edit :: rest =>
      let normalizedOld := normalizeLineEndings (oldText edit) in
      let normalizedNew := normalizeLineEndings (newText edit) in
      let next := Js.replace modifiedContent normalizedOld normalizedNew in
      Js.includes modifiedContent normalizedOld
      && negb (hasDollar normalizedOld) && negb (hasDollar normalizedNew)
      && match Js.indexOf next normalizedNew, Js.indexOf modifiedContent normalizedOld with
         | Some p, Some q => (p =? q)%nat
         | _, _ => false
         end
      && reversible next rest
  end.

(** The replacement line of the specification's reconciliation rule:
    line [j] of the new text, against line [j] of the old text when there
    is one. *)
Definition reconciledLine (originalIndent : string) (oldLine : option string)
  (j : nat) (line : string) : string :=
  match j with
  | O => originalIndent +:+ Js.trimStart line
  | S _ =>
      match oldLine with
      | Some old =>
          let oldIndent := Js.leadingWhiteSpace old in
          let newIndent := Js.leadingWhiteSpace line in
          if String.eqb oldIndent "" || String.eqb newIndent "" then line
          else originalIndent
               +:+ Js.repeat " " (String.length newIndent - String.length oldIndent)
               +:+ Js.trimStart line
      | None => line
      end
  end.

(** ** Worked inputs *)

Definition demoHost : Host := mkHost "/home/u" "/work".

(** [/allowed/link] is a symbolic link to [/etc]. *)
Definition symlinkWorld : World :=
  mkWorld (<["/allowed/link" := "/etc"]> (<["/allowed" := "/allowed"]> ∅)) ∅ [].

Definition lines (l : list string) : string := Js.join nl l.

(** A file [/notes.txt] holding ["alpha beta"]. *)
Definition notesWorld : World :=
  mkWorld ∅ {["/notes.txt" := "alpha beta"]} [].

(** A file [/pair.txt] holding ["ab"]. *)
Definition pairWorld : World := mkWorld ∅ {["/pair.txt" := "ab"]} [].

(** A file [/cr.txt] holding CR CR LF. *)
Definition crWorld : World :=
  mkWorld ∅ {["/cr.txt" := String Js.CR (String Js.CR nl)]} [].

(** A file [/vars.txt] holding two lines separated by CRLF. *)
Definition varsWorld : World :=
  mkWorld ∅
    {["/vars.txt" := "a = 1;" +:+ String Js.CR nl +:+ "b = 2;"]} [].

(** ** The allow-list of the server *)

(** A [Set] of strings as the list of its members in insertion order. *)
Definition setAdd (members : list string) (x : string) : list string :=
  if existsb (String.eqb x) members then members else members ++ [x].

(** [[...new Set(l)]], starting from a set that holds [members]. *)
Fixpoint setAddAll (members l : list string) : list string :=
  match l with
  | [] => members
  | x :: rest => setAddAll (setAdd members x) rest
  end.

Section AllowList.

Variable host : Host.

(** [loadAllowedDirectories]: what it returns for the array
    [config.allowedDirectories] read from the configuration file. Reading
    and parsing the file are not part of the embedding. *)
Definition loadAllowedDirectories (allowedDirectories : list string) : list string :=
  map (normalizeRoot host) allowedDirectories.

(** [addAllowedDirectories]: the array it stores and returns for the array
    [config.allowedDirectories] read from the configuration file and the
    directories to add. *)
Definition addAllowedDirectories (allowedDirectories directories : list string)
  : list string :=
  let normalizedNew := map (normalizeRoot host) directories in
  setAddAll [] (allowedDirectories ++ normalizedNew).

End AllowList.

(** ** File metadata *)

Definition octalDigit (n : N) : string :=
  String (ascii_of_N (48 + n)) EmptyString.

(** [n.toString(8)] for a natural number, with [fuel] digits at most. *)
Fixpoint octalDigits (fuel : nat) (n : N) : string :=
  match fuel with
  | O => EmptyString
  | S fuel' =>
      if (n <? 8)%N then octalDigit n
      else octalDigits fuel' (n / 8) +:+ octalDigit (n mod 8)
  end.

Definition toOctal (n : N) : string := octalDigits (S (N.to_nat (N.log2 n))) n.

(** [s.slice(-n)]: the last [n] code units, or all of [s]. *)
Definition lastUnits (n : nat) (s : string) : string :=
  Js.drop (String.length s - n) s.

(** [stats.mode.toString(8).slice(-3)] *)
Definition permissionsOf (mode : N) : string := lastUnits 3 (toOctal mode).

(** [stats.isDirectory()] and [stats.isFile()] read the kind of an entry. *)
Inductive EntryKind : Type := RegularFile | Directory | OtherEntry.

(** The fields of [Stats] that [fs.ts] reads; times are in milliseconds. *)
Record Stats : Type := mkStats {
  st_size : N;
  st_birthtime : Z;
  st_mtime : Z;
  st_atime : Z;
  st_mode : N;
  st_kind : EntryKind
}.

Record FileInfo : Type := mkFileInfo {
  fi_size : N;
  fi_created : Z;
  fi_modified : Z;
  fi_accessed : Z;
  fi_isDirectory : bool;
  fi_isFile : bool;
  fi_permissions : string
}.

(** ** The filesystem of the tool handlers *)

(** The calls that the tool handlers and [searchFiles] make beside those
    of [FsCall]. *)
Inductive DiskCall : Type :=
| CallStat (p : string)
| CallReaddir (p : string)
| CallMkdir (p : string)
| CallRm (p : string)
| CallArrayBuffer (p : string).

(** The world of the path guard and the patch engine, with what [stat]
    and [readdir] answer for each path (no entry when they reject) and the
    log of the further calls, oldest first. *)
Record Disk : Type := mkDisk {
  fsWorld : World;
  statOf : gmap string Stats;
  entriesOf : gmap string (list string);
  diskCalls : list DiskCall
}.

Definition Task (A : Type) : Type := Disk -> (exn + A) * Disk.

Definition retT {A} (a : A) : Task A := fun d => (inr a, d).

Definition throwT {A} (e : exn) : Task A := fun d => (inl e, d).

Definition bindT {A B} (m : Task A) (k : A -> Task B) : Task B :=
  fun d => match m d with
           | (inr a, d') => k a d'
           | (inl e, d') => (inl e, d')
           end.

Definition tryCatchT {A} (body : Task A) (handler : exn -> Task A) : Task A :=
  fun d => match body d with
           | (inl e, d') => handler e d'
           | r => r
           end.

Notation "'let+' x := m 'in' k" := (bindT m (fun x => k))
  (at level 10, x name, m at level 100, k at level 200).

(** A computation on the [World] run on the world of the disk. *)
Definition liftIO {A} (m : IO A) : Task A :=
  fun d => let '(r, w) := m (fsWorld d) in
           (r, mkDisk w (statOf d) (entriesOf d) (diskCalls d)).

Definition logDisk (c : DiskCall) (d : Disk) : Disk :=
  mkDisk (fsWorld d) (statOf d) (entriesOf d) (diskCalls d ++ [c]).

Definition stat (p : string) : Task Stats :=
  fun d => match statOf d !! p with
           | Some stats => (inr stats, logDisk (CallStat p) d)
           | None => (inl (SystemError "stat" p), logDisk (CallStat p) d)
           end.

Definition readdir (p : string) : Task (list string) :=
  fun d => match entriesOf d !! p with
           | Some entries => (inr entries, logDisk (CallReaddir p) d)
           | None => (inl (SystemError "scandir" p), logDisk (CallReaddir p) d)
           end.

(** [mkdir(p, { recursive: true })]; it is taken to succeed, and the
    tables of the disk are left as they are. *)
Definition mkdir (p : string) : Task unit :=
  fun d => (inr tt, logDisk (CallMkdir p) d).

(** [rm(p)]: removes the file, rejects when there is none. *)
Definition rm (p : string) : Task unit :=
  fun d => match files (fsWorld d) !! p with
           | Some _ =>
               (inr tt,
                logDisk (CallRm p)
                  (mkDisk (mkWorld (realpathOf (fsWorld d)) (delete p (files (fsWorld d)))
                             (calls (fsWorld d)))
                     (statOf d) (entriesOf d) (diskCalls d)))
           | None => (inl (SystemError "rm" p), logDisk (CallRm p) d)
           end.

(** [Bun.file(p).arrayBuffer()]: the bytes of the file. *)
Definition arrayBuffer (p : string) : Task string :=
  fun d => match files (fsWorld d) !! p with
           | Some t => (inr t, logDisk (CallArrayBuffer p) d)
           | None => (inl (SystemError "open" p), logDisk (CallArrayBuffer p) d)
           end.

Definition isDirectory (stats : Stats) : bool :=
  match st_kind stats with Directory => true | _ => false end.

Definition isFile (stats : Stats) : bool :=
  match st_kind stats with RegularFile => true | _ => false end.

Definition getFileStats (filePath : string) : Task FileInfo :=
  let+ stats := stat filePath in
  retT (mkFileInfo (st_size stats) (st_birthtime stats) (st_mtime stats)
          (st_atime stats) (isDirectory stats) (isFile stats)
          (permissionsOf (st_mode stats))).

(** ** [searchFiles] *)

Section Search.

Variable host : Host.

(** [path.relative] and [minimatch(_, _, { dot: true })], taken as they
    are. *)
Variable relative : string -> string -> string.
Variable minimatch : string -> string -> bool.

Variables (rootPath pattern : string) (allowedDirectories excludePatterns : list string).

(** The constant [shouldExclude] of the loop body. *)
Definition shouldExclude (fullPath : string) : bool :=
  let relativePath := relative rootPath fullPath in
  existsb (fun pattern =>
             let globPattern :=
               if Js.includes pattern "*" then pattern
               else "**/" +:+ pattern +:+ "/**" in
             minimatch relativePath globPattern)
    excludePatterns.

(** What a call of [search] leaves: the array [results], which every call
    shares, and the disk. *)
Definition SearchState : Type := (list string * Disk)%type.

(** The loop [for (const entry of entries)] of [search(currentPath)];
    [recurse] stands for the nested call [search(fullPath)], which gives
    nothing when the nesting allowed is used up. Every [return] and every
    error caught ends the loop. *)
Fixpoint searchEntries (recurse : string -> SearchState -> option ((exn + unit) * SearchState))
  (currentPath : string) (entries : list string) (st : SearchState)
  : option ((exn + unit) * SearchState) :=
  match entries with
  | [] => Some (inr tt, st)
  | entry :: rest =>
      let '(results, d) := st in
      let fullPath := path.join [currentPath; entry] in
      match liftIO (validatePath host fullPath allowedDirectories) d with
      | (inl _, d1) => Some (inr tt, (results, d1))
      | (inr _, d1) =>
          if shouldExclude fullPath then Some (inr tt, (results, d1))
          else
            let results1 :=
              if Js.includes (Js.toLowerCase entry) (Js.toLowerCase pattern)
              then results ++ [fullPath] else results in
            match stat fullPath d1 with
            | (inl _, d2) => Some (inr tt, (results1, d2))
            | (inr stats, d2) =>
                if isDirectory stats then
                  match recurse fullPath (results1, d2) with
                  | None => None
                  | Some (inl _, st') => Some (inr tt, st')
                  | Some (inr _, st') => searchEntries recurse currentPath rest st'
                  end
                else searchEntries recurse currentPath rest (results1, d2)
            end
      end
  end.

(** [search(currentPath)] with [depth] nested calls allowed. *)
Fixpoint search (depth : nat) (currentPath : string) (st : SearchState)
  : option ((exn + unit) * SearchState) :=
  match depth with
  | O => None
  | S depth' =>
      let '(results, d) := st in
      match readdir currentPath d with
      | (inl e, d1) => Some (inl e, (results, d1))
      | (inr entries, d1) =>
          searchEntries (search depth') currentPath entries (results, d1)
      end
  end.

Definition searchFiles (depth : nat) (d : Disk) : option ((exn + list string) * Disk) :=
  match search depth rootPath ([], d) with
  | None => None
  | Some (inl e, (_, d')) => Some (inl e, d')
  | Some (inr _, (results, d')) => Some (inr results, d')
  end.

End Search.

(** ** The tool handlers *)

(** The values of a tool call's arguments. *)
#[local] Unset Elimination Schemes.
Inductive Json : Type :=
| JNull
| JBool (b : bool)
| JNumber (n : Z)
| JString (s : string)
| JArray (items : list Json)
| JObject (fields : list (string * Json)).
#[local] Set Elimination Schemes.

(** [args[key]], [None] for [undefined]. *)
Fixpoint field (key : string) (fields : list (string * Json)) : option Json :=
  match fields with
  | [] => None
  | (k, v) :: rest => if String.eqb k key then Some v else field key rest
  end.

(** [z.string()] *)
Definition asString (v : option Json) : option string :=
  match v with Some (JString s) => Some s | _ => None end.

(** [z.array(z.string())] on the items of an array *)
Fixpoint asStrings (items : list Json) : option (list string) :=
  match items with
  | [] => Some []
  | item :: rest =>
      match asString (Some item), asStrings rest with
      | Some s, Some l => Some (s :: l)
      | _, _ => None
      end
  end.

Definition asStringArray (v : option Json) : option (list string) :=
  match v with Some (JArray items) => asStrings items | _ => None end.

(** The schema [EditOperation] *)
Definition asEdit (v : Json) : option Edit :=
  match v with
  | JObject fields =>
      match asString (field "oldText" fields), asString (field "newText" fields) with
      | Some o, Some n => Some (mkEdit o n)
      | _, _ => None
      end
  | _ => None
  end.

Fixpoint asEdits (items : list Json) : option (list Edit) :=
  match items with
  | [] => Some []
  | item :: rest =>
      match asEdit item, asEdits rest with
      | Some e, Some l => Some (e :: l)
      | _, _ => None
      end
  end.

(** [ReadFileArgsSchema], and the schemas of the same shape: the data of a
    successful [safeParse]. *)
Definition parsePathArgs (args : option (list (string * Json))) : option string :=
  match args with
  | Some fields => asString (field "path" fields)
  | None => None
  end.

Definition parseReadMultipleFilesArgs (args : option (list (string * Json)))
  : option (list string) :=
  match args with
  | Some fields => asStringArray (field "paths" fields)
  | None => None
  end.

Definition parseWriteFileArgs (args : option (list (string * Json)))
  : option (string * string) :=
  match args with
  | Some fields =>
      match asString (field "path" fields), asString (field "content" fields) with
      | Some p, Some c => Some (p, c)
      | _, _ => None
      end
  | None => None
  end.

Definition parseEditFileArgs (args : option (list (string * Json)))
  : option (string * list Edit * bool) :=
  match args with
  | Some fields =>
      match asString (field "path" fields),
            match field "edits" fields with
            | Some (JArray items) => asEdits items
            | _ => None
            end,
            match field "dryRun" fields with
            | None => Some false
            | Some (JBool b) => Some b
            | Some _ => None
            end with
      | Some p, Some edits, Some dryRun => Some (p, edits, dryRun)
      | _, _, _ => None
      end
  | None => None
  end.

Definition parseMoveFileArgs (args : option (list (string * Json)))
  : option (string * string) :=
  match args with
  | Some fields =>
      match asString (field "source" fields), asString (field "destination" fields) with
      | Some s, Some t => Some (s, t)
      | _, _ => None
      end
  | None => None
  end.

Definition parseSearchFilesArgs (args : option (list (string * Json)))
  : option (string * string * list string) :=
  match args with
  | Some fields =>
      match asString (field "path" fields), asString (field "pattern" fields),
            match field "excludePatterns" fields with
            | None => Some []
            | Some v => asStringArray (Some v)
            end with
      | Some p, Some pat, Some excl => Some (p, pat, excl)
      | _, _, _ => None
      end
  | None => None
  end.

(** The names of the array [tools]. *)
Definition toolNames : list string :=
  ["fs:read_file"; "fs:read_multiple_files"; "fs:write_file"; "fs:edit_file";
   "fs:create_directory"; "fs:list_directory"; "fs:move_file"; "fs:search_files";
   "fs:get_file_info"; "fs:list_allowed_directories"].

Section Tools.

Variable host : Host.
Variable relative : string -> string -> string.
Variable minimatch : string -> string -> bool.

(** The text of [parsed.error] for the arguments of a tool, the patch of
    the [diff] package, and the texts of a number and of a date in a
    template, taken as they are. *)
Variable zodError : string -> option (list (string * Json)) -> string.
Variable createTwoFilesPatch : string -> string -> string -> string -> string -> string -> string.
Variable showNumber : N -> string.
Variable showDate : Z -> string.

(** The message of the error with which a filesystem call rejects. *)
Variable systemErrorMessage : string -> string -> string.

Variable allowedDirectories : list string.

Definition invalidArguments {A} (tool : string) (args : option (list (string * Json)))
  : Task A :=
  throwT (Error ("Invalid arguments for " +:+ tool +:+ ": " +:+ zodError tool args)).

(** [error.message] *)
Definition errorMessage (e : exn) : string :=
  match e with
  | Error message => message
  | SystemError syscall p => systemErrorMessage syscall p
  end.

(** The callbacks of [read_multiple_files], one path after the other. *)
Fixpoint readEach (paths : list string) : Task (list string) :=
  match paths with
  | [] => retT []
  | filePath :: rest =>
      let+ line :=
        tryCatchT
          (let+ validPath := liftIO (validatePath host filePath allowedDirectories) in
           let+ content := liftIO (readText validPath) in
           retT (filePath +:+ ":" +:+ nl +:+ content +:+ nl))
          (fun error => retT (filePath +:+ ": Error - " +:+ errorMessage error)) in
      let+ lines := readEach rest in
      retT (line :: lines)
  end.

(** The callbacks of [list_directory]: every [stat] is issued; the first
    rejection in the order of the entries is the one thrown. *)
Fixpoint formatEntries (validPath : string) (entries : list string)
  : Task (list string) :=
  match entries with
  | [] => retT []
  | entry :: rest =>
      fun d =>
        let '(r, d1) := stat (path.join [validPath; entry]) d in
        let '(rs, d2) := formatEntries validPath rest d1 in
        match r, rs with
        | inl e, _ => (inl e, d2)
        | inr _, inl e => (inl e, d2)
        | inr stats, inr formatted =>
            (inr (((if isDirectory stats then "[DIR]" else "[FILE]") +:+ " " +:+ entry)
                  :: formatted), d2)
        end
  end.

Definition showBoolean (b : bool) : string := if b then "true" else "false".

(** [Object.entries(info).map(([key, value]) => `${key}: ${value}`)] *)
Definition infoLines (info : FileInfo) : list string :=
  ["size: " +:+ showNumber (fi_size info);
   "created: " +:+ showDate (fi_created info);
   "modified: " +:+ showDate (fi_modified info);
   "accessed: " +:+ showDate (fi_accessed info);
   "isDirectory: " +:+ showBoolean (fi_isDirectory info);
   "isFile: " +:+ showBoolean (fi_isFile info);
   "permissions: " +:+ fi_permissions info].

(** [handleTool]: the text of the content it returns, [None] for [null];
    [depth] bounds the nesting of [searchFiles], and nothing is given when
    it is used up. *)
Definition handleTool (depth : nat) (name : string)
  (args : option (list (string * Json))) (d : Disk)
  : option ((exn + option string) * Disk) :=
  if String.eqb name "fs:read_file" then
    Some (match parsePathArgs args with
          | None => invalidArguments "read_file" args
          | Some p =>
              let+ validPath := liftIO (validatePath host p allowedDirectories) in
              let+ content := liftIO (readText validPath) in
              retT (Some content)
          end d)
  else if String.eqb name "fs:read_multiple_files" then
    Some (match parseReadMultipleFilesArgs args with
          | None => invalidArguments "read_multiple_files" args
          | Some paths =>
              let+ results := readEach paths in
              retT (Some (Js.join (nl +:+ "---" +:+ nl) results))
          end d)
  else if String.eqb name "fs:write_file" then
    Some (match parseWriteFileArgs args with
          | None => invalidArguments "write_file" args
          | Some (p, content) =>
              let+ validPath := liftIO (validatePath host p allowedDirectories) in
              let+ written := liftIO (write validPath content) in
              retT (Some ("Successfully wrote to " +:+ p))
          end d)
  else if String.eqb name "fs:edit_file" then
    Some (match parseEditFileArgs args with
          | None => invalidArguments "edit_file" args
          | Some (p, edits, dryRun) =>
              let+ validPath := liftIO (validatePath host p allowedDirectories) in
              let+ result := liftIO (applyFileEdits validPath edits dryRun) in
              let+ current := liftIO (readText validPath) in
              retT (Some (createTwoFilesPatch p p current result "original" "modified"))
          end d)
  else if String.eqb name "fs:create_directory" then
    Some (match parsePathArgs args with
          | None => invalidArguments "create_directory" args
          | Some p =>
              let+ validPath := liftIO (validatePath host p allowedDirectories) in
              let+ made := mkdir validPath in
              retT (Some ("Successfully created directory " +:+ p))
          end d)
  else if String.eqb name "fs:list_directory" then
    Some (match parsePathArgs args with
          | None => invalidArguments "list_directory" args
          | Some p =>
              let+ validPath := liftIO (validatePath host p allowedDirectories) in
              let+ entries := readdir validPath in
              let+ formatted := formatEntries validPath entries in
              retT (Some (Js.join nl formatted))
          end d)
  else if String.eqb name "fs:move_file" then
    Some (match parseMoveFileArgs args with
          | None => invalidArguments "move_file" args
          | Some (source, destination) =>
              let+ validSourcePath :=
                liftIO (validatePath host source allowedDirectories) in
              let+ validDestPath :=
                liftIO (validatePath host destination allowedDirectories) in
              let+ content := arrayBuffer validSourcePath in
              let+ written := liftIO (write validDestPath content) in
              let+ removed := rm validSourcePath in
              retT (Some ("Successfully moved " +:+ source +:+ " to " +:+ destination))
          end d)
  else if String.eqb name "fs:search_files" then
    match parseSearchFilesArgs args with
    | None => Some (invalidArguments "search_files" args d)
    | Some (p, pat, excl) =>
        match liftIO (validatePath host p allowedDirectories) d with
        | (inl e, d1) => Some (inl e, d1)
        | (inr validPath, d1) =>
            match searchFiles host relative minimatch validPath pat
                    allowedDirectories excl depth d1 with
            | None => None
            | Some (inl e, d2) => Some (inl e, d2)
            | Some (inr results, d2) =>
                Some (inr (Some (match results with
                                 | [] => "No matches found"
                                 | _ => Js.join nl results
                                 end)), d2)
            end
        end
    end
  else if String.eqb name "fs:get_file_info" then
    Some (match parsePathArgs args with
          | None => invalidArguments "get_file_info" args
          | Some p =>
              let+ validPath := liftIO (validatePath host p allowedDirectories) in
              let+ info := getFileStats validPath in
              retT (Some (Js.join nl (infoLines info)))
          end d)
  else if String.eqb name "fs:list_allowed_directories" then
    Some (inr (Some ("Allowed directories:" +:+ nl +:+ Js.join nl allowedDirectories)), d)
  else Some (inr None, d).

End Tools.

(** ** Vocabulary of the search and of the tools *)

(** A path found by the search: an entry of some directory whose name
    holds the pattern, letter case set aside, and whose full path passes
    the coarse check of the path guard. *)
Definition found (host : Host) (pattern : string) (allowedDirectories : list string)
  (fullPath : string) : Prop :=
  isAllowed (normalizePath (absolute host fullPath)) allowedDirectories = true
  /\ exists currentPath entry,
      fullPath = path.join [currentPath; entry]
      /\ Js.includes (Js.toLowerCase entry) (Js.toLowerCase pattern) = true.

(** The tables of the disk, which no call of the search changes. *)
Definition tables (d : Disk) : gmap string Stats * gmap string (list string)
                               * gmap string string :=
  (statOf d, entriesOf d, realpathOf (fsWorld d)).

(** The tree below [p] is less than [n] directories deep. *)
Fixpoint shallow (n : nat) (stats : gmap string Stats)
  (entries : gmap string (list string)) (p : string) : Prop :=
  match n with
  | O => False
  | S n' =>
      forall names name st,
        entries !! p = Some names -> In name names ->
        stats !! path.join [p; name] = Some st -> isDirectory st = true ->
        shallow n' stats entries (path.join [p; name])
  end.

(** A handler that never returns [null]. *)
Definition neverNull (t : Task (option string)) : Prop :=
  forall d d', t d <> (inr None, d').

(** The tools whose arguments hold one [path]. *)
Definition pathTools : list string :=
  ["fs:read_file"; "fs:write_file"; "fs:edit_file"; "fs:create_directory";
   "fs:list_directory"; "fs:search_files"; "fs:get_file_info"].

(** Stand-ins for the functions of the libraries, for the worked inputs:
    the path below the root, a glob that names the whole relative path, and
    fixed texts. *)
Definition relativeBelow (from to : string) : string :=
  Js.drop (String.length from + 1) to.

Definition matchWholePath (relativePath globPattern : string) : bool :=
  String.eqb globPattern ("**/" +:+ relativePath +:+ "/**").

Definition plainZodError (tool : string) (args : option (list (string * Json)))
  : string := "Required".

Definition plainPatch (oldFileName newFileName oldStr newStr oldHeader newHeader : string)
  : string :=
  "--- " +:+ oldStr +:+ " +++ " +:+ newStr.

Definition plainNumber (n : N) : string := "".

Definition plainDate (t : Z) : string := "".

Definition plainSystemError (syscall p : string) : string := syscall.

Definition fileStats (bytes : N) : Stats := mkStats bytes 0 0 0 33188 RegularFile.

Definition directoryStats : Stats := mkStats 4096 0 0 0 16877 Directory.

(** The directory [/allowed] with the files [a.txt] and [z.txt] and the
    directory [sub], which holds [ab.txt]. *)
Definition treeDisk : Disk :=
  mkDisk
    (mkWorld
       (list_to_map
          [("/allowed", "/allowed"); ("/allowed/a.txt", "/allowed/a.txt");
           ("/allowed/sub", "/allowed/sub");
           ("/allowed/sub/ab.txt", "/allowed/sub/ab.txt");
           ("/allowed/z.txt", "/allowed/z.txt")])
       (list_to_map
          [("/allowed/a.txt", "alpha beta"); ("/allowed/sub/ab.txt", "gamma");
           ("/allowed/z.txt", "omega")])
       [])
    (list_to_map
       [("/allowed", directoryStats); ("/allowed/a.txt", fileStats 10);
        ("/allowed/sub", directoryStats); ("/allowed/sub/ab.txt", fileStats 5);
        ("/allowed/z.txt", fileStats 5)])
    (list_to_map
       [("/allowed", ["a.txt"; "sub"; "z.txt"]); ("/allowed/sub", ["ab.txt"])])
    [].

(** ** Sanity checks of the embedding *)

Example normalize_dotdot : path.normalize "/a/./b//../c/" = "/a/c/".
Proof. reflexivity. Qed.

Example normalize_relative : path.normalize "../x/../../y" = "../../y".
Proof. reflexivity. Qed.

Example resolve_relative : path.resolve "/home/u" ["proj/../notes.txt"] = "/home/u/notes.txt".
Proof. reflexivity. Qed.

Example dirname_nested : path.dirname "/allowed/link/new.txt" = "/allowed/link".
Proof. reflexivity. Qed.

Example dirname_top : path.dirname "/allowed" = "/".
Proof. reflexivity. Qed.

Example replace_first_only : Js.replace "a-b-a-b" "b" "X" = "a-X-a-b".
Proof. reflexivity. Qed.

Example replace_template : Js.replace "abc" "b" "[$&$&|$`|$'|$$|$1]" = "a[bb|a|c|$|$1]c".
Proof. reflexivity. Qed.

Example split_trailing : Js.split Js.LF (String "a" (String Js.LF "")) = ["a"; ""].
Proof. reflexivity. Qed.

(** ** Facts about the string primitives *)

Section StringFacts.

Implicit Types s t u : string.

Lemma append_nil_l s : "" +:+ s = s.
Proof. reflexivity. Qed.

Lemma append_cons c s t : String c s +:+ t = String c (s +:+ t).
Proof. reflexivity. Qed.

Lemma append_nil_r s : s +:+ "" = s.
Proof.
  induction s as [|c s IH]; [reflexivity|].
  now rewrite append_cons, IH.
Qed.

Lemma append_assoc s t u : (s +:+ t) +:+ u = s +:+ (t +:+ u).
Proof.
  induction s as [|c s IH]; [reflexivity|].
  now rewrite !append_cons, IH.
Qed.

Lemma length_append s t :
  String.length (s +:+ t) = String.length s + String.length t.
Proof.
  induction s as [|c s IH]; [reflexivity|].
  rewrite append_cons. simpl. now rewrite IH.
Qed.

Lemma startsWith_nil s : Js.startsWith s "" = true.
Proof. destruct s; reflexivity. Qed.

Lemma startsWith_append t r : Js.startsWith (t +:+ r) t = true.
Proof.
  unfold Js.startsWith.
  induction t as [|c t IH].
  - destruct r; reflexivity.
  - rewrite append_cons. simpl.
    destruct (ascii_dec c c); [exact IH | congruence].
Qed.

Lemma startsWith_split s t :
  Js.startsWith s t = true -> s = t +:+ Js.drop (String.length t) s.
Proof.
  unfold Js.startsWith.
  revert s; induction t as [|c t IH]; intros s H.
  - reflexivity.
  - destruct s as [|d s]; cbn in H; [discriminate|].
    destruct (ascii_dec c d) as [->|]; [|discriminate].
    rewrite append_cons. simpl. f_equal. now apply IH.
Qed.

Lemma take_drop n s : Js.take n s +:+ Js.drop n s = s.
Proof.
  revert s; induction n as [|n IH]; intros [|c s]; simpl; try reflexivity.
  now rewrite append_cons, IH.
Qed.

Lemma take_append_length s t : Js.take (String.length s) (s +:+ t) = s.
Proof.
  induction s as [|c s IH].
  - destruct t; reflexivity.
  - rewrite append_cons. simpl. now rewrite IH.
Qed.

Lemma drop_append_length s t : Js.drop (String.length s) (s +:+ t) = t.
Proof. induction s as [|c s IH]; [reflexivity | exact IH]. Qed.

Lemma length_take n s :
  n <= String.length s -> String.length (Js.take n s) = n.
Proof.
  revert s; induction n as [|n IH]; intros [|c s] H; simpl in *;
    try reflexivity; try lia.
  rewrite IH; lia.
Qed.

Lemma indexOf_split s t p :
  Js.indexOf s t = Some p ->
  s = Js.take p s +:+ t +:+ Js.drop (p + String.length t) s.
Proof.
  revert p; induction s as [|c s IH]; intros p H; simpl in H.
  - destruct (Js.startsWith "" t) eqn:E; [|discriminate].
    injection H as <-. simpl. now apply startsWith_split.
  - destruct (Js.startsWith (String c s) t) eqn:E.
    + injection H as <-. simpl. now apply startsWith_split.
    + destruct (Js.indexOf s t) as [q|] eqn:Eq; [|discriminate].
      injection H as <-. simpl. rewrite append_cons. f_equal. now apply IH.
Qed.

Lemma startsWith_length s t :
  Js.startsWith s t = true -> String.length t <= String.length s.
Proof.
  intros H. apply startsWith_split in H.
  apply (f_equal String.length) in H. rewrite length_append in H. lia.
Qed.

Lemma indexOf_bound s t p :
  Js.indexOf s t = Some p -> p + String.length t <= String.length s.
Proof.
  revert p; induction s as [|c s IH]; intros p H; simpl in H.
  - destruct (Js.startsWith "" t) eqn:E; [|discriminate].
    injection H as <-. now apply startsWith_length in E.
  - destruct (Js.startsWith (String c s) t) eqn:E.
    + injection H as <-. now apply startsWith_length in E.
    + destruct (Js.indexOf s t) as [q|] eqn:Eq; [|discriminate].
      injection H as <-. specialize (IH q eq_refl). simpl. lia.
Qed.

Lemma indexOf_least s t p q :
  Js.indexOf s t = Some p -> q < p -> Js.startsWith (Js.drop q s) t = false.
Proof.
  revert p q; induction s as [|c s IH]; intros p q H Hq; simpl in H.
  - destruct (Js.startsWith "" t); [injection H as <-; lia | discriminate].
  - destruct (Js.startsWith (String c s) t) eqn:E.
    + injection H as <-. lia.
    + destruct (Js.indexOf s t) as [r|] eqn:Er; [|discriminate].
      injection H as <-. destruct q as [|q]; simpl; [exact E|].
      apply (IH r); [reflexivity | lia].
Qed.

Lemma indexOf_includes s t :
  Js.includes s t = true <-> exists p, Js.indexOf s t = Some p.
Proof.
  unfold Js.includes. destruct (Js.indexOf s t) as [p|]; split;
    try discriminate; eauto.
  intros [p H]; discriminate.
Qed.

Lemma indexOf_nil s : Js.indexOf s "" = Some 0.
Proof. destruct s; reflexivity. Qed.

Lemma getSubstitution_literal matched before after t :
  hasDollar t = false -> Js.getSubstitution matched before after t = t.
Proof.
  induction t as [|c t IH]; simpl; [reflexivity|].
  intros H. apply orb_false_iff in H as [-> H]. f_equal. now apply IH.
Qed.

Lemma replace_literal s old new p :
  Js.indexOf s old = Some p -> hasDollar new = false ->
  Js.replace s old new
  = Js.take p s +:+ new +:+ Js.drop (p + String.length old) s.
Proof.
  intros H Hd. unfold Js.replace. rewrite H.
  now rewrite getSubstitution_literal.
Qed.

End StringFacts.

(** ** The path guard *)

Section PathGuardFacts.

Variable host : Host.

Implicit Types (requestedPath : string) (allowedDirectories : list string)
  (w : World).

Lemma isAllowed_false normalized allowedDirectories :
  isAllowed normalized allowedDirectories = false <->
  (forall dir, In dir allowedDirectories -> Js.startsWith normalized dir = false).
Proof.
  unfold isAllowed. induction allowedDirectories as [|d ds IH]; simpl.
  - split; [intros _ dir [] | reflexivity].
  - rewrite orb_false_iff, IH. split.
    + intros [Hd Hds] dir [<-|Hin]; auto.
    + intros H; split; [apply H; now left | intros dir Hin; apply H; now right].
Qed.

Lemma isAllowed_true normalized allowedDirectories dir :
  In dir allowedDirectories -> Js.startsWith normalized dir = true ->
  isAllowed normalized allowedDirectories = true.
Proof.
  intros Hin Hpre. unfold isAllowed. apply existsb_exists. eauto.
Qed.

(** Each filesystem primitive leaves its mark in the log. *)
Lemma realpath_logged p w :
  calls (snd (realpath p w)) = calls w ++ [CallRealpath p].
Proof. unfold realpath. destruct (realpathOf w !! p); reflexivity. Qed.

Lemma validateParent_missing abs allowedDirectories w :
  realpathOf w !! path.dirname abs = None ->
  validateParent abs allowedDirectories w
  = (inl (Error ("Parent directory does not exist: " +:+ path.dirname abs)),
     logCall (CallRealpath (path.dirname abs)) w).
Proof.
  intros H. unfold validateParent, tryCatch, bind, realpath. cbv zeta.
  now rewrite H.
Qed.

Lemma validateParent_inside abs allowedDirectories w realParentPath :
  realpathOf w !! path.dirname abs = Some realParentPath ->
  isAllowed (normalizePath realParentPath) allowedDirectories = true ->
  validateParent abs allowedDirectories w
  = (inr abs, logCall (CallRealpath (path.dirname abs)) w).
Proof.
  intros H Hin. unfold validateParent, tryCatch, bind, realpath. cbv zeta.
  now rewrite H, Hin.
Qed.

(** The [throw] for a parent outside the roots sits inside the inner
    [try], whose [catch] replaces it. *)
Lemma validateParent_outside abs allowedDirectories w realParentPath :
  realpathOf w !! path.dirname abs = Some realParentPath ->
  isAllowed (normalizePath realParentPath) allowedDirectories = false ->
  validateParent abs allowedDirectories w
  = (inl (Error ("Parent directory does not exist: " +:+ path.dirname abs)),
     logCall (CallRealpath (path.dirname abs)) w).
Proof.
  intros H Hout. unfold validateParent, tryCatch, bind, realpath. cbv zeta.
  now rewrite H, Hout.
Qed.

Lemma validatePath_resolved requestedPath allowedDirectories w realPath :
  isAllowed (normalizePath (absolute host requestedPath)) allowedDirectories = true ->
  realpathOf w !! absolute host requestedPath = Some realPath ->
  isAllowed (normalizePath realPath) allowedDirectories = true ->
  validatePath host requestedPath allowedDirectories w
  = (inr realPath, logCall (CallRealpath (absolute host requestedPath)) w).
Proof.
  intros Hc Hr Hin. unfold validatePath. cbv zeta. rewrite Hc.
  unfold tryCatch, bind, realpath. simpl. now rewrite Hr, Hin.
Qed.

(** The [throw] for a resolved path outside the roots sits inside the
    outer [try]: its [catch] goes on with the parent directory. *)
Lemma validatePath_resolved_outside requestedPath allowedDirectories w realPath :
  isAllowed (normalizePath (absolute host requestedPath)) allowedDirectories = true ->
  realpathOf w !! absolute host requestedPath = Some realPath ->
  isAllowed (normalizePath realPath) allowedDirectories = false ->
  validatePath host requestedPath allowedDirectories w
  = validateParent (absolute host requestedPath) allowedDirectories
      (logCall (CallRealpath (absolute host requestedPath)) w).
Proof.
  intros Hc Hr Hout. unfold validatePath. cbv zeta. rewrite Hc.
  unfold tryCatch at 1, bind, realpath. simpl. now rewrite Hr, Hout.
Qed.

Lemma validatePath_unresolved requestedPath allowedDirectories w :
  isAllowed (normalizePath (absolute host requestedPath)) allowedDirectories = true ->
  realpathOf w !! absolute host requestedPath = None ->
  validatePath host requestedPath allowedDirectories w
  = validateParent (absolute host requestedPath) allowedDirectories
      (logCall (CallRealpath (absolute host requestedPath)) w).
Proof.
  intros Hc Hr. unfold validatePath. cbv zeta. rewrite Hc.
  unfold tryCatch at 1, bind, realpath. simpl. now rewrite Hr.
Qed.

(** A path that does not exist yet, in a parent that does not exist
    either: NotFound. *)
Lemma validatePath_parent_missing requestedPath allowedDirectories w :
  isAllowed (normalizePath (absolute host requestedPath)) allowedDirectories = true ->
  realpathOf w !! absolute host requestedPath = None ->
  realpathOf w !! path.dirname (absolute host requestedPath) = None ->
  exists e,
    fst (validatePath host requestedPath allowedDirectories w) = inl e
    /\ classify e = Some NotFound.
Proof.
  intros Hc Hr Hp. rewrite validatePath_unresolved by assumption.
  rewrite (validateParent_missing _ _ (logCall _ w) Hp).
  eexists; split; reflexivity.
Qed.

(** A path that does not exist yet, in a parent that resolves inside a
    root: the absolute path itself. *)
Lemma validatePath_new_file requestedPath allowedDirectories w realParentPath :
  isAllowed (normalizePath (absolute host requestedPath)) allowedDirectories = true ->
  realpathOf w !! absolute host requestedPath = None ->
  realpathOf w !! path.dirname (absolute host requestedPath) = Some realParentPath ->
  isAllowed (normalizePath realParentPath) allowedDirectories = true ->
  fst (validatePath host requestedPath allowedDirectories w)
  = inr (absolute host requestedPath).
Proof.
  intros Hc Hr Hp Hin. rewrite validatePath_unresolved by assumption.
  now rewrite (validateParent_inside _ _ (logCall _ w) _ Hp Hin).
Qed.

(** A path that does not exist yet, in a parent that resolves outside
    every root: the error thrown says the parent does not exist. *)
Lemma validatePath_parent_outside requestedPath allowedDirectories w realParentPath :
  isAllowed (normalizePath (absolute host requestedPath)) allowedDirectories = true ->
  realpathOf w !! absolute host requestedPath = None ->
  realpathOf w !! path.dirname (absolute host requestedPath) = Some realParentPath ->
  isAllowed (normalizePath realParentPath) allowedDirectories = false ->
  exists e,
    fst (validatePath host requestedPath allowedDirectories w) = inl e
    /\ classify e = Some NotFound.
Proof.
  intros Hc Hr Hp Hout. rewrite validatePath_unresolved by assumption.
  rewrite (validateParent_outside _ _ (logCall _ w) _ Hp Hout).
  eexists; split; reflexivity.
Qed.

(** A link that resolves outside every root, in a parent that resolves
    inside one: the path is returned as valid. *)
Lemma validatePath_escaping_link requestedPath allowedDirectories w realPath realParentPath :
  isAllowed (normalizePath (absolute host requestedPath)) allowedDirectories = true ->
  realpathOf w !! absolute host requestedPath = Some realPath ->
  isAllowed (normalizePath realPath) allowedDirectories = false ->
  realpathOf w !! path.dirname (absolute host requestedPath) = Some realParentPath ->
  isAllowed (normalizePath realParentPath) allowedDirectories = true ->
  fst (validatePath host requestedPath allowedDirectories w)
  = inr (absolute host requestedPath).
Proof.
  intros Hc Hr Hout Hp Hin.
  rewrite (validatePath_resolved_outside _ _ _ _ Hc Hr Hout).
  now rewrite (validateParent_inside _ _ (logCall _ w) _ Hp Hin).
Qed.

(** C2. A requested path whose normalized absolute form starts with none
    of the allowed roots (the list holds them normalized, as
    [loadAllowedDirectories] hands them over) is refused with an
    AccessDenied error, and the world comes back as it was: no call into
    the filesystem has been made, the log of calls has not grown. *)
Theorem validatePath_denies_before_filesystem
  requestedPath allowedDirectories w :
  (forall dir, In dir allowedDirectories ->
               Js.startsWith (normalizePath (absolute host requestedPath)) dir = false) ->
  exists message,
    validatePath host requestedPath allowedDirectories w = (inl (Error message), w)
    /\ classify (Error message) = Some AccessDenied
    /\ calls (snd (validatePath host requestedPath allowedDirectories w)) = calls w.
Proof.
  intros H. apply isAllowed_false in H.
  unfold validatePath. cbv zeta. rewrite H. simpl negb. cbv iota.
  eexists; repeat split.
Qed.

(** C4. Containment is a raw test of string prefixes: when the normalized
    absolute form of the requested path starts with one of the allowed
    roots, boundary of a path segment or not, the coarse check accepts
    it and [validatePath] goes on to ask the filesystem for the real
    path. *)
Theorem coarse_check_is_string_prefix
  requestedPath allowedDirectories root w :
  In root allowedDirectories ->
  Js.startsWith (normalizePath (absolute host requestedPath)) root = true ->
  isAllowed (normalizePath (absolute host requestedPath)) allowedDirectories = true
  /\ exists later,
      calls (snd (validatePath host requestedPath allowedDirectories w))
      = calls w ++ CallRealpath (absolute host requestedPath) :: later.
Proof.
  intros Hin Hpre.
  pose proof (isAllowed_true _ _ _ Hin Hpre) as Hc. split; [exact Hc|].
  destruct (realpathOf w !! absolute host requestedPath) as [realPath|] eqn:Hr.
  - destruct (isAllowed (normalizePath realPath) allowedDirectories) eqn:Hreal.
    + rewrite (validatePath_resolved _ _ _ _ Hc Hr Hreal). now exists [].
    + rewrite (validatePath_resolved_outside _ _ _ _ Hc Hr Hreal).
      exists [CallRealpath (path.dirname (absolute host requestedPath))].
      unfold validateParent, tryCatch, bind.
      pose proof (realpath_logged (path.dirname (absolute host requestedPath))
                    (logCall (CallRealpath (absolute host requestedPath)) w)) as Hl.
      destruct (realpath _ _) as [[e|rp] w']; simpl in *.
      * now rewrite Hl, <- app_assoc.
      * destruct (negb _); simpl; now rewrite Hl, <- app_assoc.
  - rewrite (validatePath_unresolved _ _ _ Hc Hr).
    exists [CallRealpath (path.dirname (absolute host requestedPath))].
    unfold validateParent, tryCatch, bind.
    pose proof (realpath_logged (path.dirname (absolute host requestedPath))
                  (logCall (CallRealpath (absolute host requestedPath)) w)) as Hl.
    destruct (realpath _ _) as [[e|rp] w']; simpl in *.
    + now rewrite Hl, <- app_assoc.
    + destruct (negb _); simpl; now rewrite Hl, <- app_assoc.
Qed.

(** C8, amended. With an empty allow-list [validatePath] refuses every
    requested path at once with an AccessDenied error, before any call
    into the filesystem; the code has no ArgumentInvalid error for this
    input. *)
Theorem empty_allow_list_is_access_denied requestedPath w :
  validatePath host requestedPath [] w
  = (inl (Error ("Access denied - path outside allowed directories: "
                 +:+ absolute host requestedPath +:+ " not in ")), w)
  /\ classify (Error ("Access denied - path outside allowed directories: "
                      +:+ absolute host requestedPath +:+ " not in "))
     = Some AccessDenied.
Proof. split; reflexivity. Qed.

End PathGuardFacts.

(** Witness of C2: [/etc/passwd] against the root [/data/foo]. *)
Lemma validatePath_denies_before_filesystem_witness :
  exists message,
    validatePath demoHost "/etc/passwd" ["/data/foo"] symlinkWorld
    = (inl (Error message), symlinkWorld)
    /\ classify (Error message) = Some AccessDenied
    /\ calls (snd (validatePath demoHost "/etc/passwd" ["/data/foo"] symlinkWorld))
       = calls symlinkWorld.
Proof.
  apply (validatePath_denies_before_filesystem demoHost "/etc/passwd" ["/data/foo"]).
  intros dir [<-|[]]. vm_compute. reflexivity.
Defined.

(** Witness of C4: the root [/data/foo], as [loadAllowedDirectories]
    normalizes it, and the requested path [/data/foobar]. *)
Lemma coarse_check_is_string_prefix_witness :
  isAllowed (normalizePath (absolute demoHost "/data/foobar"))
    [normalizeRoot demoHost "/data/foo"] = true
  /\ exists later,
      calls (snd (validatePath demoHost "/data/foobar"
                    [normalizeRoot demoHost "/data/foo"] symlinkWorld))
      = calls symlinkWorld ++ CallRealpath (absolute demoHost "/data/foobar") :: later.
Proof.
  apply (coarse_check_is_string_prefix demoHost "/data/foobar"
           [normalizeRoot demoHost "/data/foo"] (normalizeRoot demoHost "/data/foo")).
  - now left.
  - vm_compute. reflexivity.
Defined.

(** C8, counterexample. The requested path [/tmp/x] with an empty
    allow-list: the error is of class AccessDenied, not ArgumentInvalid. *)
Lemma empty_allow_list_not_argument_invalid :
  exists e,
    fst (validatePath demoHost "/tmp/x" [] symlinkWorld) = inl e
    /\ classify e = Some AccessDenied
    /\ classify e <> Some ArgumentInvalid.
Proof.
  eexists; split; [reflexivity|]. split; [reflexivity | discriminate].
Qed.

(** C1. The symbolic link [/allowed/link] points to [/etc]; the only root
    is [/allowed]. The path passes the coarse check and its real path lies
    outside every root, yet [validatePath] returns the path: the error
    thrown for the escaping link is caught by the [catch] of the same
    [try], which then accepts the path because its parent is inside the
    root. *)
Theorem symlink_escape_is_accepted :
  isAllowed (normalizePath (absolute demoHost "/allowed/link")) ["/allowed"] = true
  /\ realpathOf symlinkWorld !! absolute demoHost "/allowed/link" = Some "/etc"
  /\ isAllowed (normalizePath "/etc") ["/allowed"] = false
  /\ fst (validatePath demoHost "/allowed/link" ["/allowed"] symlinkWorld)
     = inr "/allowed/link".
Proof. repeat split; vm_compute; reflexivity. Qed.

(** C3. The new file [/allowed/link/new.txt] does not exist, its parent
    [/allowed/link] resolves to [/etc], outside the only root [/allowed]:
    [validatePath] throws "Parent directory does not exist", a NotFound
    error, because the AccessDenied error thrown for the parent is caught
    by the [catch] of the same [try]. *)
Theorem parent_outside_is_reported_missing :
  isAllowed (normalizePath (absolute demoHost "/allowed/link/new.txt")) ["/allowed"] = true
  /\ realpathOf symlinkWorld !! absolute demoHost "/allowed/link/new.txt" = None
  /\ realpathOf symlinkWorld !! path.dirname (absolute demoHost "/allowed/link/new.txt")
     = Some "/etc"
  /\ isAllowed (normalizePath "/etc") ["/allowed"] = false
  /\ fst (validatePath demoHost "/allowed/link/new.txt" ["/allowed"] symlinkWorld)
     = inl (Error "Parent directory does not exist: /allowed/link")
  /\ classify (Error "Parent directory does not exist: /allowed/link") = Some NotFound.
Proof. repeat split; vm_compute; reflexivity. Qed.

(** ** The patch engine *)

Section PatchEngineFacts.

Implicit Types (doc : string) (edit : Edit) (edits : list Edit) (w : World).

Lemma tierOf_exact doc edit :
  tierOf doc edit = Exact <->
  Js.includes doc (normalizeLineEndings (oldText edit)) = true.
Proof.
  unfold tierOf. destruct (Js.includes _ _); [tauto|].
  destruct (findMatch _ _ _ _); split; discriminate.
Qed.

Lemma applyEdit_exact doc edit :
  tierOf doc edit = Exact ->
  applyEdit doc edit
  = inr (Js.replace doc (normalizeLineEndings (oldText edit))
           (normalizeLineEndings (newText edit))).
Proof. intros H. apply tierOf_exact in H. unfold applyEdit. now rewrite H. Qed.

Lemma applyEdit_fuzzy doc edit i :
  tierOf doc edit = Fuzzy i ->
  applyEdit doc edit
  = inr (Js.join nl
           (Js.splice (Js.split Js.LF doc) i
              (length (Js.split Js.LF (normalizeLineEndings (oldText edit))))
              (newLines (Js.leadingWhiteSpace (nth i (Js.split Js.LF doc) ""))
                 (Js.split Js.LF (normalizeLineEndings (oldText edit)))
                 (normalizeLineEndings (newText edit))))).
Proof.
  unfold tierOf, applyEdit. destruct (Js.includes _ _); [discriminate|].
  destruct (findMatch _ _ _ _) as [k|]; [|discriminate].
  now intros [= ->].
Qed.

Lemma applyEdit_no_tier doc edit :
  tierOf doc edit = NoTier ->
  applyEdit doc edit
  = inl (Error ("Could not find exact match for edit:" +:+ nl +:+ oldText edit)).
Proof.
  unfold tierOf, applyEdit. destruct (Js.includes _ _); [discriminate|].
  now destruct (findMatch _ _ _ _).
Qed.

(** The window loop returns the lowest index whose window matches. *)
Lemma findMatch_some oldLines contentLines i n k :
  findMatch oldLines contentLines i n = Some k ->
  i <= k < i + n
  /\ isMatch oldLines (Js.slice contentLines k (k + length oldLines)) = true
  /\ forall j, i <= j < k ->
               isMatch oldLines (Js.slice contentLines j (j + length oldLines)) = false.
Proof.
  revert i; induction n as [|n IH]; intros i H; simpl in H; [discriminate|].
  destruct (isMatch oldLines (Js.slice contentLines i (i + length oldLines))) eqn:E.
  - injection H as <-. repeat split; [lia | lia | exact E | intros j Hj; lia].
  - destruct (IH _ H) as (Hk & Hm & Hlow). repeat split; [lia | lia | exact Hm |].
    intros j Hj. destruct (Nat.eq_dec j i) as [->|Hne]; [exact E | apply Hlow; lia].
Qed.

Lemma findMatch_none oldLines contentLines i n :
  findMatch oldLines contentLines i n = None <->
  forall j, i <= j < i + n ->
            isMatch oldLines (Js.slice contentLines j (j + length oldLines)) = false.
Proof.
  revert i; induction n as [|n IH]; intros i; simpl.
  - split; [intros _ j Hj; lia | reflexivity].
  - destruct (isMatch oldLines (Js.slice contentLines i (i + length oldLines))) eqn:E.
    + split; [discriminate|]. intros H. rewrite H in E by lia. discriminate.
    + rewrite IH. split; intros H j Hj.
      * destruct (Nat.eq_dec j i) as [->|Hne]; [exact E | apply H; lia].
      * apply H; lia.
Qed.

(** An edit falls to no tier exactly when its old text does not occur and
    no window of the document matches it line by line. *)
Lemma tierOf_no_tier doc edit :
  tierOf doc edit = NoTier <->
  Js.includes doc (normalizeLineEndings (oldText edit)) = false
  /\ forall j,
      j + length (Js.split Js.LF (normalizeLineEndings (oldText edit)))
      <= length (Js.split Js.LF doc) ->
      isMatch (Js.split Js.LF (normalizeLineEndings (oldText edit)))
        (Js.slice (Js.split Js.LF doc) j
           (j + length (Js.split Js.LF (normalizeLineEndings (oldText edit)))))
      = false.
Proof.
  unfold tierOf. destruct (Js.includes _ _).
  - split; [discriminate | intros [? _]; discriminate].
  - destruct (findMatch _ _ _ _) as [k|] eqn:E.
    + split; [discriminate|]. intros [_ H].
      apply findMatch_some in E as (Hk & Hm & _). rewrite H in Hm by lia. discriminate.
    + split; [|reflexivity]. intros _. split; [reflexivity|].
      intros j Hj. apply (proj1 (findMatch_none _ _ _ _) E). lia.
Qed.

(** An edit is settled by the fuzzy tier at window [i] exactly when its old
    text does not occur and [i] is the lowest window that matches line by
    line. *)
Lemma tierOf_fuzzy doc edit i :
  tierOf doc edit = Fuzzy i <->
  Js.includes doc (normalizeLineEndings (oldText edit)) = false
  /\ i + length (Js.split Js.LF (normalizeLineEndings (oldText edit)))
     <= length (Js.split Js.LF doc)
  /\ isMatch (Js.split Js.LF (normalizeLineEndings (oldText edit)))
       (Js.slice (Js.split Js.LF doc) i
          (i + length (Js.split Js.LF (normalizeLineEndings (oldText edit)))))
     = true
  /\ forall j, j < i ->
      isMatch (Js.split Js.LF (normalizeLineEndings (oldText edit)))
        (Js.slice (Js.split Js.LF doc) j
           (j + length (Js.split Js.LF (normalizeLineEndings (oldText edit)))))
      = false.
Proof.
  unfold tierOf. destruct (Js.includes _ _).
  - split; [discriminate | intros [? _]; discriminate].
  - destruct (findMatch _ _ _ _) as [k|] eqn:E.
    + pose proof (findMatch_some _ _ _ _ _ E) as (Hk & Hm & Hlow). split.
      * intros [= <-]. repeat split; [lia | exact Hm | intros j Hj; apply Hlow; lia].
      * intros (_ & Hi & Hmi & Hlowi). f_equal.
        destruct (Nat.lt_trichotomy k i) as [Hlt|[->|Hgt]]; [|reflexivity|].
        -- rewrite (Hlowi k Hlt) in Hm. discriminate.
        -- rewrite (Hlow i) in Hmi by lia. discriminate.
    + split; [discriminate|]. intros (_ & Hi & Hmi & _).
      rewrite (proj1 (findMatch_none _ _ _ _) E i) in Hmi by lia. discriminate.
Qed.

Lemma applyEdits_app doc edits1 edits2 :
  applyEdits doc (edits1 ++ edits2)
  = match applyEdits doc edits1 with
    | inr next => applyEdits next edits2
    | inl e => inl e
    end.
Proof.
  revert doc; induction edits1 as [|edit rest IH]; intros doc; simpl.
  - reflexivity.
  - destruct (applyEdit doc edit); [reflexivity | apply IH].
Qed.

(** The three ways a call of [applyFileEdits] on an existing file ends. *)
Lemma applyFileEdits_written filePath raw edits result w :
  files w !! filePath = Some raw ->
  applyEdits (normalizeLineEndings raw) edits = inr result ->
  applyFileEdits filePath edits false w
  = (inr result,
     mkWorld (realpathOf w) (<[filePath := result]> (files w))
       (calls w ++ [CallText filePath] ++ [CallWrite filePath result])).
Proof.
  intros Hf Hr. unfold applyFileEdits, bind, readText, liftResult, write, ret.
  rewrite Hf, Hr. simpl. now rewrite <- app_assoc.
Qed.

Lemma applyFileEdits_dry_run filePath raw edits result w :
  files w !! filePath = Some raw ->
  applyEdits (normalizeLineEndings raw) edits = inr result ->
  applyFileEdits filePath edits true w
  = (inr result, logCall (CallText filePath) w).
Proof.
  intros Hf Hr. unfold applyFileEdits, bind, readText, liftResult, write, ret.
  now rewrite Hf, Hr.
Qed.

Lemma applyFileEdits_thrown filePath raw edits e dryRun w :
  files w !! filePath = Some raw ->
  applyEdits (normalizeLineEndings raw) edits = inl e ->
  applyFileEdits filePath edits dryRun w
  = (inl e, logCall (CallText filePath) w).
Proof.
  intros Hf Hr. unfold applyFileEdits, bind, readText, liftResult.
  now rewrite Hf, Hr.
Qed.

(** C9. When the edits before some edit apply and that edit matches under
    neither tier, the call throws the MatchNotFound error that quotes the
    old text of that edit, and the only call into storage has been the
    read: the stored files are what they were, whatever the earlier edits
    did to the document in memory. *)
Theorem failed_edit_leaves_storage_unchanged
  filePath raw (before : list Edit) edit (after : list Edit) current dryRun w :
  files w !! filePath = Some raw ->
  applyEdits (normalizeLineEndings raw) before = inr current ->
  tierOf current edit = NoTier ->
  fst (applyFileEdits filePath (before ++ edit :: after) dryRun w)
  = inl (Error ("Could not find exact match for edit:" +:+ nl +:+ oldText edit))
  /\ classify (Error ("Could not find exact match for edit:" +:+ nl +:+ oldText edit))
     = Some MatchNotFound
  /\ files (snd (applyFileEdits filePath (before ++ edit :: after) dryRun w)) = files w
  /\ calls (snd (applyFileEdits filePath (before ++ edit :: after) dryRun w))
     = calls w ++ [CallText filePath].
Proof.
  intros Hf Hb Ht.
  assert (applyEdits (normalizeLineEndings raw) (before ++ edit :: after)
          = inl (Error ("Could not find exact match for edit:" +:+ nl +:+ oldText edit)))
    as Hfail.
  { rewrite applyEdits_app, Hb. simpl. now rewrite (applyEdit_no_tier _ _ Ht). }
  rewrite (applyFileEdits_thrown _ _ _ _ dryRun _ Hf Hfail).
  repeat split.
Qed.

End PatchEngineFacts.

(** Witness of C9: the second of three edits finds no match, after the
    first has turned the document in memory into ["gamma beta"]. *)
Lemma failed_edit_leaves_storage_unchanged_witness :
  fst (applyFileEdits "/notes.txt"
         ([mkEdit "alpha" "gamma"] ++ mkEdit "delta" "x" :: [mkEdit "beta" "y"])
         false notesWorld)
  = inl (Error ("Could not find exact match for edit:" +:+ nl +:+ "delta"))
  /\ classify (Error ("Could not find exact match for edit:" +:+ nl +:+ "delta"))
     = Some MatchNotFound
  /\ files (snd (applyFileEdits "/notes.txt"
                   ([mkEdit "alpha" "gamma"] ++ mkEdit "delta" "x" :: [mkEdit "beta" "y"])
                   false notesWorld))
     = files notesWorld
  /\ calls (snd (applyFileEdits "/notes.txt"
                   ([mkEdit "alpha" "gamma"] ++ mkEdit "delta" "x" :: [mkEdit "beta" "y"])
                   false notesWorld))
     = calls notesWorld ++ [CallText "/notes.txt"].
Proof.
  apply (failed_edit_leaves_storage_unchanged "/notes.txt" "alpha beta"
           [mkEdit "alpha" "gamma"] (mkEdit "delta" "x") [mkEdit "beta" "y"]
           "gamma beta" false notesWorld).
  - vm_compute. reflexivity.
  - vm_compute. reflexivity.
  - vm_compute. reflexivity.
Defined.

(** ** The exact tier *)

Section ExactTier.

Implicit Types (doc : string) (edit : Edit).

(** With no dollar sign in the new text, the exact tier puts the new text
    in the place of the leftmost occurrence of the old text, whatever the
    window search would have found. *)
Lemma exact_tier_replaces_first_occurrence doc edit :
  tierOf doc edit = Exact ->
  hasDollar (normalizeLineEndings (newText edit)) = false ->
  exists p,
    Js.indexOf doc (normalizeLineEndings (oldText edit)) = Some p
    /\ doc = Js.take p doc +:+ normalizeLineEndings (oldText edit)
             +:+ Js.drop (p + String.length (normalizeLineEndings (oldText edit))) doc
    /\ (forall q, q < p ->
                  Js.startsWith (Js.drop q doc) (normalizeLineEndings (oldText edit)) = false)
    /\ applyEdit doc edit
       = inr (Js.take p doc +:+ normalizeLineEndings (newText edit)
              +:+ Js.drop (p + String.length (normalizeLineEndings (oldText edit))) doc).
Proof.
  intros Ht Hd. rewrite (applyEdit_exact _ _ Ht).
  apply tierOf_exact, indexOf_includes in Ht as [p Hp].
  exists p. split; [exact Hp|]. split; [now apply indexOf_split|].
  split; [intros q Hq; now apply (indexOf_least _ _ p)|].
  now rewrite (replace_literal _ _ _ p).
Qed.

(** An edit with an empty old text is always settled by the exact tier,
    at position 0, and never throws. *)
Lemma empty_old_text_is_exact doc new : tierOf doc (mkEdit "" new) = Exact.
Proof. apply tierOf_exact. simpl. unfold Js.includes. now rewrite indexOf_nil. Qed.

Lemma empty_old_text_never_throws doc new :
  applyEdit doc (mkEdit "" new)
  = inr (Js.getSubstitution "" "" doc (normalizeLineEndings new) +:+ doc).
Proof.
  rewrite (applyEdit_exact _ _ (empty_old_text_is_exact doc new)). simpl.
  unfold Js.replace. rewrite indexOf_nil. reflexivity.
Qed.

Lemma empty_old_text_prepends doc new :
  hasDollar (normalizeLineEndings new) = false ->
  applyEdit doc (mkEdit "" new) = inr (normalizeLineEndings new +:+ doc).
Proof.
  intros Hd. rewrite empty_old_text_never_throws.
  now rewrite getSubstitution_literal.
Qed.

End ExactTier.

(** The exact tier wins over an earlier line that differs in white space
    only: the window search would match line 0, the text occurs verbatim
    on line 1, and line 1 is the one replaced. *)
Example exact_tier_precedes_earlier_near_match :
  tierOf (lines ["foo"; "  foo"]) (mkEdit "  foo" "bar") = Exact
  /\ findMatch ["  foo"] ["foo"; "  foo"] 0 2 = Some 0
  /\ applyEdit (lines ["foo"; "  foo"]) (mkEdit "  foo" "bar")
     = inr (lines ["foo"; "bar"]).
Proof. repeat split; vm_compute; reflexivity. Qed.

(** C5. The document ["total: X"] holds the old text ["X"] verbatim, at
    index 7 only; the edit is settled by the exact tier, but what takes the
    place of ["X"] is ["$5"], not the new text ["$$5"]: [replace] reads the
    new text as a replacement template. *)
Theorem exact_tier_expands_dollar_patterns :
  tierOf "total: X" (mkEdit "X" "$$5") = Exact
  /\ Js.indexOf "total: X" "X" = Some 7
  /\ applyEdit "total: X" (mkEdit "X" "$$5") = inr "total: $5"
  /\ Js.take 7 "total: X" +:+ "$$5" +:+ Js.drop (7 + 1) "total: X" = "total: $$5"
  /\ "total: $5" <> "total: $$5".
Proof. repeat split; try (vm_compute; reflexivity). discriminate. Qed.

(** C10. The edit with an empty old text and the new text ["$'"] on the
    document ["abc"]: the exact tier applies at position 0 and nothing is
    thrown, but what is put in front of the document is ["abc"], the text
    after the match, not the new text. *)
Theorem empty_old_text_expands_dollar_patterns :
  tierOf "abc" (mkEdit "" "$'") = Exact
  /\ applyEdit "abc" (mkEdit "" "$'") = inr "abcabc"
  /\ "abcabc" <> "$'" +:+ "abc".
Proof. repeat split; try (vm_compute; reflexivity). discriminate. Qed.

(** ** Undoing exact edits *)

Section RoundTrip.

Implicit Types (doc : string) (edit : Edit) (edits : list Edit).

Lemma reversible_cons doc edit rest :
  reversible doc (edit :: rest) = true ->
  hasDollar (normalizeLineEndings (oldText edit)) = false
  /\ hasDollar (normalizeLineEndings (newText edit)) = false
  /\ (exists p,
        Js.indexOf doc (normalizeLineEndings (oldText edit)) = Some p
        /\ Js.indexOf (Js.replace doc (normalizeLineEndings (oldText edit))
                         (normalizeLineEndings (newText edit)))
             (normalizeLineEndings (newText edit)) = Some p)
  /\ reversible (Js.replace doc (normalizeLineEndings (oldText edit))
                   (normalizeLineEndings (newText edit))) rest = true.
Proof.
  simpl. intros H.
  apply andb_prop in H as [H Hrest]. apply andb_prop in H as [H Hpos].
  apply andb_prop in H as [H Hnew]. apply andb_prop in H as [_ Hold].
  apply negb_true_iff in Hold, Hnew.
  repeat split; try assumption.
  destruct (Js.indexOf (Js.replace _ _ _) _) as [p|]; [|discriminate].
  destruct (Js.indexOf doc _) as [q|]; [|discriminate].
  apply Nat.eqb_eq in Hpos as ->. now exists q.
Qed.

(** Taking the old text out and putting the new text in, then the other
    way round at the same place, gives the document back. *)
Lemma replace_undo doc old new p :
  hasDollar old = false -> hasDollar new = false ->
  Js.indexOf doc old = Some p ->
  Js.indexOf (Js.replace doc old new) new = Some p ->
  Js.replace (Js.replace doc old new) new old = doc.
Proof.
  intros Hold Hnew Hp Hq.
  rewrite (replace_literal _ _ _ p Hq Hold).
  rewrite (replace_literal _ _ _ p Hp Hnew).
  pose proof (indexOf_bound _ _ _ Hp) as Hb.
  assert (String.length (Js.take p doc) = p) as Hlen by (apply length_take; lia).
  set (rest := Js.drop (p + String.length old) doc).
  assert (Js.take p (Js.take p doc +:+ new +:+ rest) = Js.take p doc) as ->.
  { rewrite <- Hlen at 1. apply take_append_length. }
  assert (Js.drop (p + String.length new) (Js.take p doc +:+ new +:+ rest) = rest) as ->.
  { rewrite <- (append_assoc (Js.take p doc) new rest).
    replace (p + String.length new)
      with (String.length (Js.take p doc +:+ new))
      by (rewrite length_append; lia).
    apply drop_append_length. }
  subst rest.
  symmetry. now apply indexOf_split.
Qed.

Lemma allExact_app doc edits1 edits2 next :
  allExact doc edits1 = true ->
  applyEdits doc edits1 = inr next ->
  allExact next edits2 = true ->
  allExact doc (edits1 ++ edits2) = true.
Proof.
  revert doc; induction edits1 as [|edit rest IH]; intros doc H1 Hr H2; simpl in *.
  - now injection Hr as ->.
  - destruct (tierOf doc edit); try discriminate.
    destruct (applyEdit doc edit) as [e|mid]; [discriminate|].
    now apply IH.
Qed.

(** Reversible edits apply at the exact tier, and their inverse list, at
    the exact tier too, leads back to the document they started from. *)
Lemma applyEdits_undo edits doc :
  reversible doc edits = true ->
  exists result,
    applyEdits doc edits = inr result
    /\ allExact doc edits = true
    /\ applyEdits result (inverseEdits edits) = inr doc
    /\ allExact result (inverseEdits edits) = true.
Proof.
  revert doc; induction edits as [|edit rest IH]; intros doc H.
  - exists doc. repeat split.
  - apply reversible_cons in H as (Hold & Hnew & [p [Hp Hq]] & Hrest).
    assert (tierOf doc edit = Exact) as Ht.
    { apply tierOf_exact, indexOf_includes. eauto. }
    destruct (IH _ Hrest) as (result & Hfwd & Hex & Hback & Hexback).
    exists result. simpl. rewrite Ht, (applyEdit_exact _ _ Ht).
    assert (tierOf (Js.replace doc (normalizeLineEndings (oldText edit))
                      (normalizeLineEndings (newText edit))) (swapEdit edit) = Exact)
      as Hts.
    { apply tierOf_exact, indexOf_includes. simpl. eauto. }
    assert (applyEdit (Js.replace doc (normalizeLineEndings (oldText edit))
                         (normalizeLineEndings (newText edit))) (swapEdit edit)
            = inr doc) as Hundo.
    { rewrite (applyEdit_exact _ _ Hts). simpl.
      now rewrite (replace_undo _ _ _ p). }
    repeat split; try assumption.
    + unfold inverseEdits. simpl. rewrite applyEdits_app.
      unfold inverseEdits in Hback. rewrite Hback. simpl. now rewrite Hundo.
    + unfold inverseEdits. simpl.
      apply (allExact_app _ _ _ _ Hexback Hback).
      simpl. now rewrite Hts, Hundo.
Qed.

(** C7, amended. When the edits are reversible on the normalized content
    of the file (each is settled by the exact tier, no old or new text
    holds a dollar sign, and each new text occurs first where it was put)
    and the result holds no CRLF to normalize, then applying the edits to
    the file and the inverse edits to the file they leave, both at the
    exact tier, returns and stores the normalized content. *)
Theorem roundtrip_of_reversible_edits filePath raw edits result w :
  files w !! filePath = Some raw ->
  reversible (normalizeLineEndings raw) edits = true ->
  applyEdits (normalizeLineEndings raw) edits = inr result ->
  normalizeLineEndings result = result ->
  allExact (normalizeLineEndings raw) edits = true
  /\ allExact (normalizeLineEndings result) (inverseEdits edits) = true
  /\ exists w1 w2,
      applyFileEdits filePath edits false w = (inr result, w1)
      /\ applyFileEdits filePath (inverseEdits edits) false w1
         = (inr (normalizeLineEndings raw), w2)
      /\ files w2 !! filePath = Some (normalizeLineEndings raw).
Proof.
  intros Hf Hrev Hfwd Hnorm.
  destruct (applyEdits_undo _ _ Hrev) as (result' & Hfwd' & Hex & Hback & Hexback).
  rewrite Hfwd in Hfwd'. injection Hfwd' as <-.
  rewrite Hnorm. repeat split; try assumption.
  eexists. eexists. split; [|split].
  - apply (applyFileEdits_written _ _ _ _ _ Hf Hfwd).
  - apply (applyFileEdits_written _ result).
    + simpl. apply lookup_insert_eq.
    + now rewrite Hnorm.
  - simpl. apply lookup_insert_eq.
Qed.

End RoundTrip.

(** C7, counterexample. On ["ab"] the edit that turns ["b"] into ["a"]
    gives ["aa"]; the inverse edit turns the first ["a"] into ["b"] and
    gives ["ba"]. Both edits are settled by the exact tier. *)
Lemma roundtrip_fails_when_new_text_occurs_earlier :
  allExact (normalizeLineEndings "ab") [mkEdit "b" "a"] = true
  /\ fst (applyFileEdits "/pair.txt" [mkEdit "b" "a"] false pairWorld) = inr "aa"
  /\ allExact (normalizeLineEndings "aa") (inverseEdits [mkEdit "b" "a"]) = true
  /\ fst (applyFileEdits "/pair.txt" (inverseEdits [mkEdit "b" "a"]) false
            (snd (applyFileEdits "/pair.txt" [mkEdit "b" "a"] false pairWorld)))
     = inr "ba"
  /\ "ba" <> normalizeLineEndings "ab".
Proof. repeat split; try (vm_compute; reflexivity). discriminate. Qed.

(** Normalizing line endings twice is not normalizing once: with no edit
    at all, the second call reads CR LF, which the first call left, and
    returns LF. *)
Example roundtrip_needs_settled_line_endings :
  fst (applyFileEdits "/cr.txt" [] false crWorld) = inr (String Js.CR nl)
  /\ fst (applyFileEdits "/cr.txt" (inverseEdits []) false
            (snd (applyFileEdits "/cr.txt" [] false crWorld)))
     = inr nl
  /\ nl <> normalizeLineEndings (String Js.CR (String Js.CR nl)).
Proof. repeat split; try (vm_compute; reflexivity). discriminate. Qed.

(** Witness of C7, amended: two edits on [/vars.txt] and back. *)
Lemma roundtrip_of_reversible_edits_witness :
  allExact (normalizeLineEndings ("a = 1;" +:+ String Js.CR nl +:+ "b = 2;"))
    [mkEdit "a = 1" "a = 10"; mkEdit "b = 2" "c = 3"] = true
  /\ allExact (normalizeLineEndings (lines ["a = 10;"; "c = 3;"]))
       (inverseEdits [mkEdit "a = 1" "a = 10"; mkEdit "b = 2" "c = 3"]) = true
  /\ exists w1 w2,
      applyFileEdits "/vars.txt" [mkEdit "a = 1" "a = 10"; mkEdit "b = 2" "c = 3"]
        false varsWorld
      = (inr (lines ["a = 10;"; "c = 3;"]), w1)
      /\ applyFileEdits "/vars.txt"
           (inverseEdits [mkEdit "a = 1" "a = 10"; mkEdit "b = 2" "c = 3"]) false w1
         = (inr (normalizeLineEndings ("a = 1;" +:+ String Js.CR nl +:+ "b = 2;")), w2)
      /\ files w2 !! "/vars.txt"
         = Some (normalizeLineEndings ("a = 1;" +:+ String Js.CR nl +:+ "b = 2;")).
Proof.
  apply (roundtrip_of_reversible_edits "/vars.txt"
           ("a = 1;" +:+ String Js.CR nl +:+ "b = 2;")
           [mkEdit "a = 1" "a = 10"; mkEdit "b = 2" "c = 3"]
           (lines ["a = 10;"; "c = 3;"]) varsWorld).
  - vm_compute. reflexivity.
  - vm_compute. reflexivity.
  - vm_compute. reflexivity.
  - vm_compute. reflexivity.
Defined.

(** ** The fuzzy tier and the reconciliation of indentation *)

Section Reconciliation.

Lemma mapi_from_ext {A B} (f g : A -> nat -> B) k l :
  (forall x j, f x j = g x j) -> Js.mapi_from f k l = Js.mapi_from g k l.
Proof.
  intros H. revert k; induction l as [|x l IH]; intros k; simpl.
  - reflexivity.
  - now rewrite H, IH.
Qed.

Lemma mapi_from_length {A B} (f : A -> nat -> B) k l :
  length (Js.mapi_from f k l) = length l.
Proof. revert k; induction l as [|x l IH]; intros k; simpl; [|rewrite IH]; reflexivity. Qed.

Lemma mapi_from_nth_error {A B} (f : A -> nat -> B) k l j x :
  nth_error l j = Some x -> nth_error (Js.mapi_from f k l) j = Some (f x (k + j)).
Proof.
  revert k j; induction l as [|y l IH]; intros k [|j] H; simpl in *; try discriminate.
  - injection H as ->. now rewrite Nat.add_0_r.
  - rewrite (IH (S k) j H). f_equal. f_equal. lia.
Qed.

Lemma forallb_mapi_from {A} (f : A -> nat -> bool) k l :
  forallb (fun b : bool => b) (Js.mapi_from f k l) = true <->
  forall j x, nth_error l j = Some x -> f x (k + j) = true.
Proof.
  revert k; induction l as [|y l IH]; intros k; simpl.
  - split; [intros _ [|j] x H; discriminate | reflexivity].
  - rewrite andb_true_iff, IH. split.
    + intros [Hy Hl] [|j] x H; simpl in H.
      * injection H as <-. now rewrite Nat.add_0_r.
      * specialize (Hl j x H). now replace (k + S j) with (S k + j) by lia.
    + intros H. split.
      * specialize (H 0 y eq_refl). now rewrite Nat.add_0_r in H.
      * intros j x Hj. specialize (H (S j) x Hj).
        now replace (k + S j) with (S k + j) in H by lia.
Qed.

(** A window matches when each line of the old text equals the line of
    the window at the same place, white space at both ends set aside. *)
Lemma isMatch_lines oldLines potentialMatch :
  isMatch oldLines potentialMatch = true <->
  forall j oldLine,
    nth_error oldLines j = Some oldLine ->
    exists contentLine,
      nth_error potentialMatch j = Some contentLine
      /\ Js.trim oldLine = Js.trim contentLine.
Proof.
  unfold isMatch, Js.mapi. rewrite forallb_mapi_from. simpl.
  split; intros H j oldLine Hj; specialize (H j oldLine Hj).
  - destruct (nth_error potentialMatch j) as [contentLine|]; [|discriminate].
    exists contentLine. split; [reflexivity | now apply String.eqb_eq].
  - destruct H as (contentLine & -> & Heq). now apply String.eqb_eq.
Qed.

(** The constant [newLines] follows the reconciliation rule of the
    specification line by line. *)
Lemma newLines_reconciled originalIndent oldLines normalizedNew :
  newLines originalIndent oldLines normalizedNew
  = Js.mapi (fun line j => reconciledLine originalIndent (nth_error oldLines j) j line)
      (Js.split Js.LF normalizedNew).
Proof.
  unfold newLines, Js.mapi. apply mapi_from_ext. intros line [|j].
  - reflexivity.
  - unfold reconciledLine. change (S j =? 0)%nat with false. cbv iota zeta.
    destruct (nth_error oldLines (S j)) as [old|]; [|reflexivity].
    unfold truthy.
    destruct (String.eqb (Js.leadingWhiteSpace old) ""); simpl; [reflexivity|].
    destruct (String.eqb (Js.leadingWhiteSpace line) ""); simpl; [reflexivity|].
    do 2 f_equal. f_equal. lia.
Qed.

(** The window loop keeps every window as long as the old text. *)
Lemma slice_window_length (contentLines : list string) i n :
  i + n <= length contentLines -> length (Js.slice contentLines i (i + n)) = n.
Proof.
  intros H. unfold Js.slice. rewrite length_firstn, length_skipn. lia.
Qed.

(** C6, amended. On a fuzzy match at window [i] the matched lines are
    replaced by the lines of the new text, reconciled by the rule: line 0
    is the leading white space of the first matched line followed by the
    stripped line; a later line [j] whose old line [j] and itself both
    start with white space is that indent, then as many spaces as the new
    indent is longer than the old one, then the stripped line; any other
    line is kept as it is. On the document of the specification's example
    the old text occurs verbatim, the exact tier applies and the new text
    is put in unchanged; on a document that differs in white space the rule
    gives the example's first two lines and leaves the last line, which has
    no indent in the new text, as it is. *)
Theorem fuzzy_match_reconciles_indentation :
  (forall doc edit i,
      tierOf doc edit = Fuzzy i ->
      exists originalIndent emitted,
        originalIndent = Js.leadingWhiteSpace (nth i (Js.split Js.LF doc) "")
        /\ applyEdit doc edit
           = inr (Js.join nl
                    (firstn i (Js.split Js.LF doc) ++ emitted
                     ++ skipn (i + length (Js.split Js.LF (normalizeLineEndings (oldText edit))))
                          (Js.split Js.LF doc)))
        /\ length emitted = length (Js.split Js.LF (normalizeLineEndings (newText edit)))
        /\ forall j line,
            nth_error (Js.split Js.LF (normalizeLineEndings (newText edit))) j = Some line ->
            nth_error emitted j
            = Some (reconciledLine originalIndent
                      (nth_error (Js.split Js.LF (normalizeLineEndings (oldText edit))) j)
                      j line))
  /\ applyEdit (lines ["  if (x) {"; "    doThing();"; "  }"])
       (mkEdit (lines ["  if (x) {"; "    doThing();"; "  }"])
               (lines ["if (x) {"; "  doOther();"; "}"]))
     = inr (lines ["if (x) {"; "  doOther();"; "}"])
  /\ applyEdit (lines ["  if (x) {"; "    doThing();  "; "  }"])
       (mkEdit (lines ["  if (x) {"; "    doThing();"; "  }"])
               (lines ["if (x) {"; "  doOther();"; "}"]))
     = inr (lines ["  if (x) {"; "  doOther();"; "}"]).
Proof.
  split; [|split; vm_compute; reflexivity].
  intros doc edit i Ht.
  exists (Js.leadingWhiteSpace (nth i (Js.split Js.LF doc) "")).
  exists (newLines (Js.leadingWhiteSpace (nth i (Js.split Js.LF doc) ""))
            (Js.split Js.LF (normalizeLineEndings (oldText edit)))
            (normalizeLineEndings (newText edit))).
  split; [reflexivity|]. split; [exact (applyEdit_fuzzy _ _ _ Ht)|].
  rewrite newLines_reconciled. unfold Js.mapi. split.
  - apply mapi_from_length.
  - intros j line Hj. now rewrite (mapi_from_nth_error _ 0 _ j line Hj).
Qed.

End Reconciliation.

(** Witness of C6, amended: the edit of the specification's example on a
    document whose middle line carries trailing spaces, matched by the
    fuzzy tier at window 0. *)
Lemma fuzzy_match_reconciles_indentation_witness :
  exists originalIndent emitted,
    originalIndent
    = Js.leadingWhiteSpace
        (nth 0 (Js.split Js.LF (lines ["  if (x) {"; "    doThing();  "; "  }"])) "")
    /\ applyEdit (lines ["  if (x) {"; "    doThing();  "; "  }"])
         (mkEdit (lines ["  if (x) {"; "    doThing();"; "  }"])
                 (lines ["if (x) {"; "  doOther();"; "}"]))
       = inr (Js.join nl
                (firstn 0 (Js.split Js.LF (lines ["  if (x) {"; "    doThing();  "; "  }"]))
                 ++ emitted
                 ++ skipn (0 + length
                                 (Js.split Js.LF
                                    (normalizeLineEndings
                                       (lines ["  if (x) {"; "    doThing();"; "  }"]))))
                      (Js.split Js.LF (lines ["  if (x) {"; "    doThing();  "; "  }"]))))
    /\ length emitted
       = length (Js.split Js.LF
                   (normalizeLineEndings (lines ["if (x) {"; "  doOther();"; "}"])))
    /\ forall j line,
        nth_error (Js.split Js.LF
                     (normalizeLineEndings (lines ["if (x) {"; "  doOther();"; "}"]))) j
        = Some line ->
        nth_error emitted j
        = Some (reconciledLine originalIndent
                  (nth_error
                     (Js.split Js.LF
                        (normalizeLineEndings
                           (lines ["  if (x) {"; "    doThing();"; "  }"]))) j)
                  j line).
Proof.
  apply (proj1 fuzzy_match_reconciles_indentation
           (lines ["  if (x) {"; "    doThing();  "; "  }"])
           (mkEdit (lines ["  if (x) {"; "    doThing();"; "  }"])
                   (lines ["if (x) {"; "  doOther();"; "}"]))
           0).
  vm_compute. reflexivity.
Defined.

(** C6, counterexample. The edit of the specification's example on the
    document of the example: the old text occurs verbatim, so the exact
    tier puts the new text in as it is, and the result is not the one the
    example gives. *)
Lemma spec_example_is_settled_by_exact_tier :
  tierOf (lines ["  if (x) {"; "    doThing();"; "  }"])
    (mkEdit (lines ["  if (x) {"; "    doThing();"; "  }"])
            (lines ["if (x) {"; "  doOther();"; "}"])) = Exact
  /\ applyEdits (lines ["  if (x) {"; "    doThing();"; "  }"])
       [mkEdit (lines ["  if (x) {"; "    doThing();"; "  }"])
               (lines ["if (x) {"; "  doOther();"; "}"])]
     = inr (lines ["if (x) {"; "  doOther();"; "}"])
  /\ lines ["if (x) {"; "  doOther();"; "}"]
     <> lines ["  if (x) {"; "  doOther();"; "  }"].
Proof. repeat split; try (vm_compute; reflexivity). discriminate. Qed.

(** ** More on the path guard *)

Section PathGuardMore.

Variable host : Host.

Implicit Types (requestedPath : string) (allowedDirectories : list string)
  (w : World).

(** X1. When [validatePath] returns a path, the requested path has passed
    the coarse check, and the path returned is either the real path of the
    requested one, itself inside a root, or the absolute form of the
    requested one, whose parent directory resolves inside a root. *)
Theorem validatePath_success_inversion
  requestedPath allowedDirectories w validPath w' :
  validatePath host requestedPath allowedDirectories w = (inr validPath, w') ->
  isAllowed (normalizePath (absolute host requestedPath)) allowedDirectories = true
  /\ ((realpathOf w !! absolute host requestedPath = Some validPath
       /\ isAllowed (normalizePath validPath) allowedDirectories = true)
      \/ (validPath = absolute host requestedPath
          /\ exists realParentPath,
              realpathOf w !! path.dirname (absolute host requestedPath)
              = Some realParentPath
              /\ isAllowed (normalizePath realParentPath) allowedDirectories = true)).
Proof.
  intros H.
  destruct (isAllowed (normalizePath (absolute host requestedPath)) allowedDirectories)
    eqn:Hc.
  2:{ unfold validatePath in H. cbv zeta in H. rewrite Hc in H. discriminate. }
  split; [reflexivity|].
  assert (forall w0 p w1,
             validateParent (absolute host requestedPath) allowedDirectories
               (logCall (CallRealpath (absolute host requestedPath)) w0) = (inr p, w1) ->
             realpathOf w0 = realpathOf w ->
             p = absolute host requestedPath
             /\ exists realParentPath,
                 realpathOf w !! path.dirname (absolute host requestedPath)
                 = Some realParentPath
                 /\ isAllowed (normalizePath realParentPath) allowedDirectories = true)
    as Hparent.
  { intros w0 p w1 Hp Hw0.
    destruct (realpathOf w !! path.dirname (absolute host requestedPath))
      as [rp|] eqn:Hrp.
    - destruct (isAllowed (normalizePath rp) allowedDirectories) eqn:Hin.
      + rewrite (validateParent_inside _ _ (logCall _ w0) rp) in Hp;
          [|simpl; now rewrite Hw0 | exact Hin].
        injection Hp as <- _. split; [reflexivity | eauto].
      + rewrite (validateParent_outside _ _ (logCall _ w0) rp) in Hp;
          [discriminate | simpl; now rewrite Hw0 | exact Hin].
    - rewrite (validateParent_missing _ _ (logCall _ w0)) in Hp;
        [discriminate | simpl; now rewrite Hw0]. }
  destruct (realpathOf w !! absolute host requestedPath) as [realPath|] eqn:Hr.
  - destruct (isAllowed (normalizePath realPath) allowedDirectories) eqn:Hin.
    + rewrite (validatePath_resolved _ _ _ _ _ Hc Hr Hin) in H.
      injection H as <- _. now left.
    + rewrite (validatePath_resolved_outside _ _ _ _ _ Hc Hr Hin) in H.
      right. now apply (Hparent w validPath w').
  - rewrite (validatePath_unresolved _ _ _ _ Hc Hr) in H.
    right. now apply (Hparent w validPath w').
Qed.

(** X2. Whatever [validatePath] throws is an [Error] of class AccessDenied
    or NotFound: a rejection of [realpath] never reaches the caller. *)
Theorem validatePath_error_classes requestedPath allowedDirectories w e w' :
  validatePath host requestedPath allowedDirectories w = (inl e, w') ->
  exists message,
    e = Error message
    /\ (classify e = Some AccessDenied \/ classify e = Some NotFound).
Proof.
  intros H.
  destruct (isAllowed (normalizePath (absolute host requestedPath)) allowedDirectories)
    eqn:Hc.
  2:{ unfold validatePath in H. cbv zeta in H. rewrite Hc in H.
      injection H as <- _. eexists. split; [reflexivity | now left]. }
  assert (forall w0 w1,
             validateParent (absolute host requestedPath) allowedDirectories w0
             = (inl e, w1) ->
             exists message,
               e = Error message
               /\ (classify e = Some AccessDenied \/ classify e = Some NotFound))
    as Hparent.
  { intros w0 w1 Hp.
    destruct (realpathOf w0 !! path.dirname (absolute host requestedPath))
      as [rp|] eqn:Hrp.
    - destruct (isAllowed (normalizePath rp) allowedDirectories) eqn:Hin.
      + rewrite (validateParent_inside _ _ _ rp Hrp Hin) in Hp. discriminate.
      + rewrite (validateParent_outside _ _ _ rp Hrp Hin) in Hp.
        injection Hp as <- _. eexists. split; [reflexivity | now right].
    - rewrite (validateParent_missing _ _ _ Hrp) in Hp.
      injection Hp as <- _. eexists. split; [reflexivity | now right]. }
  destruct (realpathOf w !! absolute host requestedPath) as [realPath|] eqn:Hr.
  - destruct (isAllowed (normalizePath realPath) allowedDirectories) eqn:Hin.
    + rewrite (validatePath_resolved _ _ _ _ _ Hc Hr Hin) in H. discriminate.
    + rewrite (validatePath_resolved_outside _ _ _ _ _ Hc Hr Hin) in H. eauto.
  - rewrite (validatePath_unresolved _ _ _ _ Hc Hr) in H. eauto.
Qed.

(** X3. [validatePath] only asks: the files and the table of real paths
    come back as they were, and the log grows by nothing, by one
    [realpath] of the absolute path, or by that and one [realpath] of its
    parent directory. *)
Theorem validatePath_only_resolves requestedPath allowedDirectories w :
  files (snd (validatePath host requestedPath allowedDirectories w)) = files w
  /\ realpathOf (snd (validatePath host requestedPath allowedDirectories w))
     = realpathOf w
  /\ (calls (snd (validatePath host requestedPath allowedDirectories w)) = calls w
      \/ calls (snd (validatePath host requestedPath allowedDirectories w))
         = calls w ++ [CallRealpath (absolute host requestedPath)]
      \/ calls (snd (validatePath host requestedPath allowedDirectories w))
         = calls w ++ [CallRealpath (absolute host requestedPath);
                       CallRealpath (path.dirname (absolute host requestedPath))]).
Proof.
  assert (forall w0,
             files (snd (validateParent (absolute host requestedPath) allowedDirectories w0))
             = files w0
             /\ realpathOf (snd (validateParent (absolute host requestedPath)
                                   allowedDirectories w0)) = realpathOf w0
             /\ calls (snd (validateParent (absolute host requestedPath)
                              allowedDirectories w0))
                = calls w0 ++ [CallRealpath (path.dirname (absolute host requestedPath))])
    as Hparent.
  { intros w0.
    destruct (realpathOf w0 !! path.dirname (absolute host requestedPath))
      as [rp|] eqn:Hrp.
    - destruct (isAllowed (normalizePath rp) allowedDirectories) eqn:Hin.
      + rewrite (validateParent_inside _ _ _ rp Hrp Hin). repeat split.
      + rewrite (validateParent_outside _ _ _ rp Hrp Hin). repeat split.
    - rewrite (validateParent_missing _ _ _ Hrp). repeat split. }
  destruct (isAllowed (normalizePath (absolute host requestedPath)) allowedDirectories)
    eqn:Hc.
  2:{ unfold validatePath. cbv zeta. rewrite Hc. simpl. auto. }
  destruct (realpathOf w !! absolute host requestedPath) as [realPath|] eqn:Hr.
  - destruct (isAllowed (normalizePath realPath) allowedDirectories) eqn:Hin.
    + rewrite (validatePath_resolved _ _ _ _ _ Hc Hr Hin). simpl. auto.
    + rewrite (validatePath_resolved_outside _ _ _ _ _ Hc Hr Hin).
      destruct (Hparent (logCall (CallRealpath (absolute host requestedPath)) w))
        as (Hf & Hl & Hcalls).
      rewrite Hf, Hl, Hcalls. simpl. rewrite <- app_assoc. auto.
  - rewrite (validatePath_unresolved _ _ _ _ Hc Hr).
    destruct (Hparent (logCall (CallRealpath (absolute host requestedPath)) w))
      as (Hf & Hl & Hcalls).
    rewrite Hf, Hl, Hcalls. simpl. rewrite <- app_assoc. auto.
Qed.

(** A requested path that passes the coarse check and resolves to a
    real path inside a root is answered with that real path, after a
    single [realpath] call. *)
Lemma validatePath_returns_real_path
  requestedPath allowedDirectories w realPath :
  isAllowed (normalizePath (absolute host requestedPath)) allowedDirectories = true ->
  realpathOf w !! absolute host requestedPath = Some realPath ->
  isAllowed (normalizePath realPath) allowedDirectories = true ->
  fst (validatePath host requestedPath allowedDirectories w) = inr realPath
  /\ calls (snd (validatePath host requestedPath allowedDirectories w))
     = calls w ++ [CallRealpath (absolute host requestedPath)].
Proof.
  intros Hc Hr Hin. now rewrite (validatePath_resolved _ _ _ _ _ Hc Hr Hin).
Qed.

End PathGuardMore.

(** Witness of X1: [/allowed] itself, which exists and is its own real
    path. *)
Lemma validatePath_success_inversion_witness :
  isAllowed (normalizePath (absolute demoHost "/allowed")) ["/allowed"] = true
  /\ ((realpathOf symlinkWorld !! absolute demoHost "/allowed" = Some "/allowed"
       /\ isAllowed (normalizePath "/allowed") ["/allowed"] = true)
      \/ ("/allowed" = absolute demoHost "/allowed"
          /\ exists realParentPath,
              realpathOf symlinkWorld !! path.dirname (absolute demoHost "/allowed")
              = Some realParentPath
              /\ isAllowed (normalizePath realParentPath) ["/allowed"] = true)).
Proof.
  apply (validatePath_success_inversion demoHost "/allowed" ["/allowed"] symlinkWorld
           "/allowed" (logCall (CallRealpath "/allowed") symlinkWorld)).
  vm_compute. reflexivity.
Defined.

(** Witness of X2: [/allowed/ghost/new.txt], whose parent does not
    exist. *)
Lemma validatePath_error_classes_witness :
  exists message,
    Error "Parent directory does not exist: /allowed/ghost" = Error message
    /\ (classify (Error "Parent directory does not exist: /allowed/ghost")
        = Some AccessDenied
        \/ classify (Error "Parent directory does not exist: /allowed/ghost")
           = Some NotFound).
Proof.
  apply (validatePath_error_classes demoHost "/allowed/ghost/new.txt" ["/allowed"]
           symlinkWorld (Error "Parent directory does not exist: /allowed/ghost")
           (logCall (CallRealpath "/allowed/ghost")
              (logCall (CallRealpath "/allowed/ghost/new.txt") symlinkWorld))).
  vm_compute. reflexivity.
Defined.

(** Witness: [/allowed] against the root [/allowed]. *)
Lemma validatePath_returns_real_path_witness :
  fst (validatePath demoHost "/allowed" ["/allowed"] symlinkWorld) = inr "/allowed"
  /\ calls (snd (validatePath demoHost "/allowed" ["/allowed"] symlinkWorld))
     = calls symlinkWorld ++ [CallRealpath (absolute demoHost "/allowed")].
Proof.
  apply (validatePath_returns_real_path demoHost "/allowed" ["/allowed"] symlinkWorld
           "/allowed").
  - vm_compute. reflexivity.
  - vm_compute. reflexivity.
  - vm_compute. reflexivity.
Defined.

(** X4. A requested path that does not exist yet, in a parent directory that
    resolves inside a root, is answered with its absolute form: the path
    guard lets a file be created there. *)
Theorem new_file_in_allowed_parent_is_valid
  (host : Host) (requestedPath : string) (allowedDirectories : list string)
  (w : World) (realParentPath : string) :
  isAllowed (normalizePath (absolute host requestedPath)) allowedDirectories = true ->
  realpathOf w !! absolute host requestedPath = None ->
  realpathOf w !! path.dirname (absolute host requestedPath) = Some realParentPath ->
  isAllowed (normalizePath realParentPath) allowedDirectories = true ->
  fst (validatePath host requestedPath allowedDirectories w)
  = inr (absolute host requestedPath)
  /\ calls (snd (validatePath host requestedPath allowedDirectories w))
     = calls w ++ [CallRealpath (absolute host requestedPath);
                   CallRealpath (path.dirname (absolute host requestedPath))].
Proof.
  intros Hc Hr Hp Hin. rewrite (validatePath_unresolved _ _ _ _ Hc Hr).
  rewrite (validateParent_inside _ _ (logCall _ w) _ Hp Hin). simpl.
  now rewrite <- app_assoc.
Qed.

(** X5. A requested path that does not exist, in a parent directory that does
    not exist either, is refused with a NotFound error that names the
    parent directory. *)
Theorem missing_parent_is_not_found
  (host : Host) (requestedPath : string) (allowedDirectories : list string)
  (w : World) :
  isAllowed (normalizePath (absolute host requestedPath)) allowedDirectories = true ->
  realpathOf w !! absolute host requestedPath = None ->
  realpathOf w !! path.dirname (absolute host requestedPath) = None ->
  fst (validatePath host requestedPath allowedDirectories w)
  = inl (Error ("Parent directory does not exist: "
                +:+ path.dirname (absolute host requestedPath)))
  /\ classify (Error ("Parent directory does not exist: "
                      +:+ path.dirname (absolute host requestedPath)))
     = Some NotFound.
Proof.
  intros Hc Hr Hp. rewrite (validatePath_unresolved _ _ _ _ Hc Hr).
  rewrite (validateParent_missing _ _ (logCall _ w) Hp). split; reflexivity.
Qed.

(** Witness of X4: a new file [/allowed/new.txt] in the existing root. *)
Lemma new_file_in_allowed_parent_is_valid_witness :
  fst (validatePath demoHost "/allowed/new.txt" ["/allowed"] symlinkWorld)
  = inr (absolute demoHost "/allowed/new.txt")
  /\ calls (snd (validatePath demoHost "/allowed/new.txt" ["/allowed"] symlinkWorld))
     = calls symlinkWorld
       ++ [CallRealpath (absolute demoHost "/allowed/new.txt");
           CallRealpath (path.dirname (absolute demoHost "/allowed/new.txt"))].
Proof.
  apply (new_file_in_allowed_parent_is_valid demoHost "/allowed/new.txt" ["/allowed"]
           symlinkWorld "/allowed").
  - vm_compute. reflexivity.
  - vm_compute. reflexivity.
  - vm_compute. reflexivity.
  - vm_compute. reflexivity.
Defined.

(** Witness of X5: [/allowed/ghost/new.txt], neither it nor its parent exists. *)
Lemma missing_parent_is_not_found_witness :
  fst (validatePath demoHost "/allowed/ghost/new.txt" ["/allowed"] symlinkWorld)
  = inl (Error ("Parent directory does not exist: "
                +:+ path.dirname (absolute demoHost "/allowed/ghost/new.txt")))
  /\ classify (Error ("Parent directory does not exist: "
                      +:+ path.dirname (absolute demoHost "/allowed/ghost/new.txt")))
     = Some NotFound.
Proof.
  apply (missing_parent_is_not_found demoHost "/allowed/ghost/new.txt" ["/allowed"]
           symlinkWorld).
  - vm_compute. reflexivity.
  - vm_compute. reflexivity.
  - vm_compute. reflexivity.
Defined.

(** ** Case folding *)

Section CaseFolding.

Lemma lowerUnit_idempotent c : Js.lowerUnit (Js.lowerUnit c) = Js.lowerUnit c.
Proof. destruct c as [[] [] [] [] [] [] [] []]; reflexivity. Qed.

Lemma lowerUnit_slash c :
  Ascii.eqb (Js.lowerUnit c) "/"%char = Ascii.eqb c "/"%char.
Proof. destruct c as [[] [] [] [] [] [] [] []]; reflexivity. Qed.

Lemma lowerUnit_dot c :
  Ascii.eqb (Js.lowerUnit c) "."%char = Ascii.eqb c "."%char.
Proof. destruct c as [[] [] [] [] [] [] [] []]; reflexivity. Qed.

Lemma toLowerCase_idempotent s :
  Js.toLowerCase (Js.toLowerCase s) = Js.toLowerCase s.
Proof.
  induction s as [|c s IH]; simpl; [reflexivity|].
  now rewrite lowerUnit_idempotent, IH.
Qed.

Lemma toLowerCase_append s t :
  Js.toLowerCase (s +:+ t) = Js.toLowerCase s +:+ Js.toLowerCase t.
Proof.
  induction s as [|c s IH]; [reflexivity|].
  rewrite append_cons. simpl. now rewrite IH.
Qed.

(** A prefix of a folded text is folded itself. *)
Lemma startsWith_folded s dir :
  Js.startsWith (Js.toLowerCase s) dir = true -> Js.toLowerCase dir = dir.
Proof.
  unfold Js.startsWith.
  revert s; induction dir as [|d dir IH]; intros s H; [reflexivity|].
  destruct s as [|c s]; cbn in H; [discriminate|].
  destruct (ascii_dec d (Js.lowerUnit c)) as [->|]; [|discriminate].
  simpl. now rewrite lowerUnit_idempotent, (IH s).
Qed.

Lemma split_toLowerCase s :
  Js.split "/"%char (Js.toLowerCase s) = map Js.toLowerCase (Js.split "/"%char s).
Proof.
  induction s as [|c s IH]; simpl; [reflexivity|].
  rewrite lowerUnit_slash. destruct (Ascii.eqb c "/"%char); simpl.
  - now rewrite IH.
  - rewrite IH. destruct (Js.split "/"%char s); reflexivity.
Qed.

Lemma join_toLowerCase l :
  Js.join "/" (map Js.toLowerCase l) = Js.toLowerCase (Js.join "/" l).
Proof.
  induction l as [|x [|y l] IH]; try reflexivity.
  change (Js.join "/" (map Js.toLowerCase (x :: y :: l)))
    with (Js.toLowerCase x +:+ "/" +:+ Js.join "/" (map Js.toLowerCase (y :: l))).
  change (Js.join "/" (x :: y :: l)) with (x +:+ "/" +:+ Js.join "/" (y :: l)).
  now rewrite IH, !toLowerCase_append.
Qed.

Lemma eqb_toLowerCase_nil s : String.eqb (Js.toLowerCase s) "" = String.eqb s "".
Proof. destruct s; reflexivity. Qed.

Lemma eqb_toLowerCase_dot s : String.eqb (Js.toLowerCase s) "." = String.eqb s ".".
Proof.
  destruct s as [|c [|d s]]; try reflexivity; simpl.
  - rewrite lowerUnit_dot. reflexivity.
  - rewrite lowerUnit_dot. reflexivity.
Qed.

Lemma eqb_toLowerCase_dotdot s : String.eqb (Js.toLowerCase s) ".." = String.eqb s "..".
Proof.
  destruct s as [|c [|d [|e s]]]; try reflexivity; simpl;
    rewrite ?lowerUnit_dot; reflexivity.
Qed.

Lemma normalizeSegments_toLowerCase allowAboveRoot segs res :
  path.normalizeSegments allowAboveRoot (map Js.toLowerCase segs)
    (map Js.toLowerCase res)
  = map Js.toLowerCase (path.normalizeSegments allowAboveRoot segs res).
Proof.
  revert res; induction segs as [|seg segs IH]; intros res; simpl.
  - now rewrite map_rev.
  - rewrite eqb_toLowerCase_nil, eqb_toLowerCase_dot, eqb_toLowerCase_dotdot.
    destruct (String.eqb seg "" || String.eqb seg "."); [apply IH|].
    destruct (String.eqb seg "..").
    + destruct res as [|top res]; simpl.
      * destruct allowAboveRoot; apply (IH [".."]) || apply (IH []).
      * rewrite eqb_toLowerCase_dotdot. destruct (String.eqb top "..").
        -- destruct allowAboveRoot; [apply (IH (".." :: top :: res)) | apply (IH (top :: res))].
        -- apply IH.
    + apply (IH (seg :: res)).
Qed.

Lemma isAbsolute_cons c p : path.isAbsolute (String c p) = Ascii.eqb c "/"%char.
Proof.
  unfold path.isAbsolute, Js.startsWith.
  change (String.prefix "/" (String c p))
    with (if ascii_dec "/"%char c then String.prefix "" p else false).
  destruct (ascii_dec "/"%char c) as [<-|Hne].
  - now destruct p.
  - symmetry. apply Ascii.eqb_neq. congruence.
Qed.

Lemma isAbsolute_toLowerCase p : path.isAbsolute (Js.toLowerCase p) = path.isAbsolute p.
Proof.
  destruct p as [|c p]; [reflexivity|].
  change (Js.toLowerCase (String c p)) with (String (Js.lowerUnit c) (Js.toLowerCase p)).
  rewrite !isAbsolute_cons. apply lowerUnit_slash.
Qed.

Lemma lastIs_toLowerCase p :
  Js.lastIs "/"%char (Js.toLowerCase p) = Js.lastIs "/"%char p.
Proof.
  induction p as [|c p IH]; [reflexivity|].
  destruct p as [|d p]; [apply lowerUnit_slash | exact IH].
Qed.

Lemma normalize_toLowerCase p :
  path.normalize (Js.toLowerCase p) = Js.toLowerCase (path.normalize p).
Proof.
  unfold path.normalize, path.normalizeString.
  rewrite eqb_toLowerCase_nil, isAbsolute_toLowerCase, lastIs_toLowerCase.
  rewrite split_toLowerCase.
  rewrite (normalizeSegments_toLowerCase _ _ []), join_toLowerCase.
  rewrite eqb_toLowerCase_nil.
  destruct (String.eqb p ""); [reflexivity|].
  destruct (String.eqb (Js.join "/" _) "").
  - destruct (path.isAbsolute p); [reflexivity|]. now destruct (Js.lastIs _ p).
  - destruct (Js.lastIs "/"%char p), (path.isAbsolute p);
      now rewrite ?toLowerCase_append.
Qed.

(** X6. [normalizePath] folds case: two paths that differ in the case of
    their letters only are the same path for every containment check. *)
Theorem normalizePath_folds_case p q :
  Js.toLowerCase p = Js.toLowerCase q -> normalizePath p = normalizePath q.
Proof.
  intros H. unfold normalizePath.
  rewrite <- !normalize_toLowerCase. now rewrite H.
Qed.

(** X7. An allowed directory that holds an upper-case letter admits no
    path: the requested path is compared in lower case, the directory as it
    is. With such directories only, every request is refused before any
    call into the filesystem. *)
Theorem mixed_case_roots_admit_nothing
  (host : Host) (requestedPath : string) (allowedDirectories : list string)
  (w : World) :
  (forall dir, In dir allowedDirectories -> Js.toLowerCase dir <> dir) ->
  exists message,
    validatePath host requestedPath allowedDirectories w = (inl (Error message), w)
    /\ classify (Error message) = Some AccessDenied.
Proof.
  intros H.
  assert (isAllowed (normalizePath (absolute host requestedPath)) allowedDirectories
          = false) as Hc.
  { apply isAllowed_false. intros dir Hin.
    destruct (Js.startsWith _ dir) eqn:E; [|reflexivity].
    exfalso. apply (H dir Hin). unfold normalizePath in E.
    now apply startsWith_folded in E. }
  unfold validatePath. cbv zeta. rewrite Hc. simpl negb. cbv iota.
  eexists; split; reflexivity.
Qed.

End CaseFolding.

(** Witness of X6: [/Data/Foo] and [/data/FOO]. *)
Lemma normalizePath_folds_case_witness :
  normalizePath "/Data/Foo" = normalizePath "/data/FOO".
Proof. apply normalizePath_folds_case. vm_compute. reflexivity. Defined.

(** Witness of X7: the directory [/Data/Foo], handed over as it is,
    refuses the path [/Data/Foo/x]. *)
Lemma mixed_case_roots_admit_nothing_witness :
  exists message,
    validatePath demoHost "/Data/Foo/x" ["/Data/Foo"] symlinkWorld
    = (inl (Error message), symlinkWorld)
    /\ classify (Error message) = Some AccessDenied.
Proof.
  apply (mixed_case_roots_admit_nothing demoHost "/Data/Foo/x" ["/Data/Foo"]).
  intros dir [<-|[]]. vm_compute. discriminate.
Defined.

(** ** Line endings *)

Section LineEndings.

Lemma startsWith_cons c s d t :
  Js.startsWith (String c s) (String d t) = Ascii.eqb c d && Js.startsWith s t.
Proof.
  unfold Js.startsWith.
  change (String.prefix (String d t) (String c s))
    with (if ascii_dec d c then String.prefix t s else false).
  destruct (ascii_dec d c) as [<-|Hne].
  - now rewrite Ascii.eqb_refl.
  - assert (Ascii.eqb c d = false) as -> by (apply Ascii.eqb_neq; congruence).
    reflexivity.
Qed.

Lemma includes_cons c s t :
  Js.includes (String c s) t = Js.startsWith (String c s) t || Js.includes s t.
Proof.
  unfold Js.includes. simpl.
  destruct (Js.startsWith (String c s) t); [reflexivity|].
  now destruct (Js.indexOf s t).
Qed.

(** X8. The texts that [normalizeLineEndings] leaves as they are are the
    texts without CR LF: normalizing is needed exactly when such a pair
    occurs. *)
Theorem normalizeLineEndings_fixed_points text :
  normalizeLineEndings text = text <-> Js.includes text (String Js.CR nl) = false.
Proof.
  induction text as [|c text IH]; [split; reflexivity|].
  rewrite includes_cons. destruct text as [|d text].
  - unfold nl. rewrite startsWith_cons.
    change (Js.startsWith "" (String Js.LF "")) with false.
    rewrite andb_false_r. split; reflexivity.
  - unfold nl. rewrite startsWith_cons, startsWith_cons, startsWith_nil, andb_true_r.
    change (normalizeLineEndings (String c (String d text)))
      with (if Ascii.eqb c Js.CR && Ascii.eqb d Js.LF
            then String Js.LF (normalizeLineEndings text)
            else String c (normalizeLineEndings (String d text))).
    destruct (Ascii.eqb c Js.CR && Ascii.eqb d Js.LF) eqn:E.
    + apply andb_prop in E as [Ec _]. apply Ascii.eqb_eq in Ec. subst c.
      split; [intros H; discriminate | discriminate].
    + simpl orb. fold nl. split.
      * intros [= H]. now apply IH.
      * intros H. apply IH in H. now rewrite H.
Qed.

(** Normalizing never makes a text longer. *)
Lemma normalizeLineEndings_length text :
  String.length (normalizeLineEndings text) <= String.length text.
Proof.
  assert (forall n s, String.length s <= n ->
                      String.length (normalizeLineEndings s) <= String.length s) as H.
  { induction n as [|n IH]; intros [|c [|d s]] Hn; simpl in *; try lia.
    destruct (Ascii.eqb c Js.CR && Ascii.eqb d Js.LF); simpl.
    - specialize (IH s). lia.
    - specialize (IH (String d s)). simpl in IH. lia. }
  now apply (H (String.length text)).
Qed.

End LineEndings.

(** ** More on the patch engine *)

Section PatchEngineMore.

Implicit Types (doc : string) (edit : Edit) (edits : list Edit) (w : World).

(** X9. With no edit at all the call returns the content with its line
    endings normalized; a dry run leaves the files alone, any other run
    stores the normalized content in place of the file. *)
Theorem applyFileEdits_without_edits filePath raw dryRun w :
  files w !! filePath = Some raw ->
  fst (applyFileEdits filePath [] dryRun w) = inr (normalizeLineEndings raw)
  /\ files (snd (applyFileEdits filePath [] dryRun w))
     = if dryRun then files w
       else <[filePath := normalizeLineEndings raw]> (files w).
Proof.
  intros Hf. destruct dryRun.
  - now rewrite (applyFileEdits_dry_run _ raw [] (normalizeLineEndings raw)).
  - now rewrite (applyFileEdits_written _ raw [] (normalizeLineEndings raw)).
Qed.

(** X10. A dry run, and a run that throws, store nothing: the files are
    what they were, and the only call made is the read of the file. *)
Theorem applyFileEdits_writes_only_on_success filePath edits dryRun w :
  dryRun = true
  \/ (exists e, fst (applyFileEdits filePath edits dryRun w) = inl e) ->
  files (snd (applyFileEdits filePath edits dryRun w)) = files w
  /\ calls (snd (applyFileEdits filePath edits dryRun w))
     = calls w ++ [CallText filePath].
Proof.
  intros H. unfold applyFileEdits, bind, readText, liftResult, write, ret in *.
  destruct (files w !! filePath) as [raw|]; [|split; reflexivity].
  destruct (applyEdits (normalizeLineEndings raw) edits) as [e|result];
    [split; reflexivity|].
  destruct H as [->|[e He]]; [split; reflexivity|].
  destruct dryRun; simpl in He; discriminate.
Qed.


(** X12. Edits compose: when a first list of edits has been applied and
    stored and its result holds no CR LF, a second call with a second list
    returns what a single call with both lists, one after the other, would
    have returned on the file as it was. *)
Theorem applyFileEdits_composes filePath raw edits1 edits2 middle dryRun w :
  files w !! filePath = Some raw ->
  applyEdits (normalizeLineEndings raw) edits1 = inr middle ->
  normalizeLineEndings middle = middle ->
  fst (applyFileEdits filePath edits2 dryRun
         (snd (applyFileEdits filePath edits1 false w)))
  = fst (applyFileEdits filePath (edits1 ++ edits2) dryRun w).
Proof.
  intros Hf H1 Hn.
  rewrite (applyFileEdits_written _ _ _ _ _ Hf H1). simpl snd.
  assert (applyEdits (normalizeLineEndings raw) (edits1 ++ edits2)
          = applyEdits middle edits2) as Hboth by now rewrite applyEdits_app, H1.
  set (w1 := mkWorld _ _ _).
  assert (files w1 !! filePath = Some middle) as Hf1 by apply lookup_insert_eq.
  destruct (applyEdits middle edits2) as [e|result] eqn:H2.
  - rewrite (applyFileEdits_thrown _ _ _ e dryRun _ Hf1) by now rewrite Hn.
    now rewrite (applyFileEdits_thrown _ _ _ e dryRun _ Hf Hboth).
  - destruct dryRun.
    + rewrite (applyFileEdits_dry_run _ _ _ result _ Hf1) by now rewrite Hn.
      now rewrite (applyFileEdits_dry_run _ _ _ result _ Hf Hboth).
    + rewrite (applyFileEdits_written _ _ _ result _ Hf1) by now rewrite Hn.
      now rewrite (applyFileEdits_written _ _ _ result _ Hf Hboth).
Qed.

(** X13. The only error the loop over the edits throws is the
    MatchNotFound error of one of its edits, quoting the old text of that
    edit as it was given. *)
Theorem applyEdits_error_names_an_edit doc edits e :
  applyEdits doc edits = inl e ->
  exists edit,
    In edit edits
    /\ e = Error ("Could not find exact match for edit:" +:+ nl +:+ oldText edit)
    /\ classify e = Some MatchNotFound.
Proof.
  revert doc; induction edits as [|edit rest IH]; intros doc H; simpl in H.
  - discriminate.
  - destruct (applyEdit doc edit) as [e'|next] eqn:Hstep.
    + injection H as <-. exists edit. split; [now left|].
      unfold applyEdit in Hstep. destruct (Js.includes _ _); [discriminate|].
      destruct (findMatch _ _ _ _); [discriminate|].
      injection Hstep as <-. split; reflexivity.
    + destruct (IH _ H) as (edit' & Hin & He & Hc).
      exists edit'. split; [now right | now split].
Qed.

(** An edit whose old text equals its new text, holds no dollar sign
    and occurs in the document leaves the document as it is. *)
Lemma identity_edit_keeps_document doc text :
  Js.includes doc (normalizeLineEndings text) = true ->
  hasDollar (normalizeLineEndings text) = false ->
  applyEdit doc (mkEdit text text) = inr doc.
Proof.
  intros Hin Hd.
  assert (tierOf doc (mkEdit text text) = Exact) as Ht by now apply tierOf_exact.
  rewrite (applyEdit_exact _ _ Ht). simpl.
  apply indexOf_includes in Hin as [p Hp].
  rewrite (replace_literal _ _ _ p Hp Hd).
  f_equal. symmetry. now apply indexOf_split.
Qed.

End PatchEngineMore.

(** ** More on the window search *)

Section WindowSearch.

Implicit Types (doc : string) (edit : Edit).

Lemma nth_error_slice {A} (l : list A) i n k :
  k < n -> nth_error (Js.slice l i (i + n)) k = nth_error l (i + k).
Proof.
  intros Hk. unfold Js.slice. rewrite nth_error_firstn, nth_error_skipn.
  replace (i + n - i) with n by lia.
  destruct (Nat.ltb_spec k n); [reflexivity | lia].
Qed.

Lemma forallb_mapi_from_false {A} (f : A -> nat -> bool) k l :
  forallb (fun b : bool => b) (Js.mapi_from f k l) = false ->
  exists j x, nth_error l j = Some x /\ f x (k + j) = false.
Proof.
  revert k; induction l as [|y l IH]; intros k H; simpl in H; [discriminate|].
  destruct (f y k) eqn:E.
  - destruct (IH (S k) H) as (j & x & Hj & Hx).
    exists (S j), x. split; [exact Hj|]. now replace (k + S j) with (S k + j) by lia.
  - exists 0, y. split; [reflexivity|]. now rewrite Nat.add_0_r.
Qed.

(** X14. The fuzzy tier settles an edit at the first window that matches:
    at window [i] every line of the old text equals the line of the
    document at the same place, white space at both ends set aside, and
    each earlier window has a line where they differ. *)
Theorem fuzzy_tier_takes_first_window doc edit i :
  tierOf doc edit = Fuzzy i ->
  (forall k oldLine,
      nth_error (Js.split Js.LF (normalizeLineEndings (oldText edit))) k = Some oldLine ->
      exists contentLine,
        nth_error (Js.split Js.LF doc) (i + k) = Some contentLine
        /\ Js.trim oldLine = Js.trim contentLine)
  /\ (forall j, j < i ->
        exists k oldLine,
          nth_error (Js.split Js.LF (normalizeLineEndings (oldText edit))) k
          = Some oldLine
          /\ forall contentLine,
              nth_error (Js.split Js.LF doc) (j + k) = Some contentLine ->
              Js.trim oldLine <> Js.trim contentLine).
Proof.
  intros Ht. apply tierOf_fuzzy in Ht as (_ & Hi & Hm & Hlow).
  set (oldLines := Js.split Js.LF (normalizeLineEndings (oldText edit))) in *.
  set (contentLines := Js.split Js.LF doc) in *.
  split.
  - intros k oldLine Hk.
    destruct (proj1 (isMatch_lines _ _) Hm k oldLine Hk) as (contentLine & Hc & Heq).
    exists contentLine. split; [|exact Heq].
    rewrite nth_error_slice in Hc; [exact Hc|].
    apply nth_error_Some. congruence.
  - intros j Hj. specialize (Hlow j Hj).
    unfold isMatch, Js.mapi in Hlow.
    apply forallb_mapi_from_false in Hlow as (k & oldLine & Hk & Hf).
    exists k, oldLine. split; [exact Hk|]. intros contentLine Hc.
    simpl in Hf. rewrite nth_error_slice in Hf
      by (apply nth_error_Some; congruence).
    rewrite Hc in Hf. now apply String.eqb_neq.
Qed.

Lemma split_nonempty sep s : 1 <= length (Js.split sep s).
Proof.
  induction s as [|c s IH]; simpl; [lia|].
  destruct (Ascii.eqb c sep); simpl; [lia|].
  destruct (Js.split sep s); simpl in *; lia.
Qed.

Lemma split_cons_length sep c s :
  length (Js.split sep (String c s))
  = if Ascii.eqb c sep then S (length (Js.split sep s)) else length (Js.split sep s).
Proof.
  simpl. destruct (Ascii.eqb c sep); [reflexivity|].
  pose proof (split_nonempty sep s). now destruct (Js.split sep s).
Qed.

Lemma split_length_append sep s t :
  length (Js.split sep (s +:+ t)) + 1
  = length (Js.split sep s) + length (Js.split sep t).
Proof.
  induction s as [|c s IH]; [rewrite append_nil_l; simpl; lia|].
  rewrite append_cons, !split_cons_length.
  destruct (Ascii.eqb c sep); lia.
Qed.

(** A text that occurs in a document has no more lines than the
    document. *)
Lemma includes_line_count doc text :
  Js.includes doc text = true ->
  length (Js.split Js.LF text) <= length (Js.split Js.LF doc).
Proof.
  intros H. apply indexOf_includes in H as [p Hp].
  apply indexOf_split in Hp.
  apply (f_equal (fun s => length (Js.split Js.LF s))) in Hp.
  pose proof (split_length_append Js.LF (Js.take p doc)
                (text +:+ Js.drop (p + String.length text) doc)) as H1.
  pose proof (split_length_append Js.LF text
                (Js.drop (p + String.length text) doc)) as H2.
  pose proof (split_nonempty Js.LF (Js.take p doc)).
  pose proof (split_nonempty Js.LF (Js.drop (p + String.length text) doc)).
  lia.
Qed.

(** X15. An edit whose old text has more lines than the document matches
    under neither tier: the call throws the MatchNotFound error of that
    edit. *)
Theorem longer_old_text_never_matches doc edit :
  length (Js.split Js.LF doc)
  < length (Js.split Js.LF (normalizeLineEndings (oldText edit))) ->
  applyEdit doc edit
  = inl (Error ("Could not find exact match for edit:" +:+ nl +:+ oldText edit)).
Proof.
  intros Hlen. apply applyEdit_no_tier. apply tierOf_no_tier. split.
  - destruct (Js.includes doc _) eqn:E; [|reflexivity].
    apply includes_line_count in E. lia.
  - intros j Hj. lia.
Qed.

End WindowSearch.

(** Witness of X9: [/vars.txt], whose CR LF becomes LF. *)
Lemma applyFileEdits_without_edits_witness :
  fst (applyFileEdits "/vars.txt" [] false varsWorld)
  = inr (normalizeLineEndings ("a = 1;" +:+ String Js.CR nl +:+ "b = 2;"))
  /\ files (snd (applyFileEdits "/vars.txt" [] false varsWorld))
     = <["/vars.txt" := normalizeLineEndings ("a = 1;" +:+ String Js.CR nl +:+ "b = 2;")]>
         (files varsWorld).
Proof.
  apply (applyFileEdits_without_edits "/vars.txt"
           ("a = 1;" +:+ String Js.CR nl +:+ "b = 2;") false varsWorld).
  vm_compute. reflexivity.
Defined.

(** Witness of X10: a dry run on [/notes.txt]. *)
Lemma applyFileEdits_writes_only_on_success_witness :
  files (snd (applyFileEdits "/notes.txt" [mkEdit "alpha" "gamma"] true notesWorld))
  = files notesWorld
  /\ calls (snd (applyFileEdits "/notes.txt" [mkEdit "alpha" "gamma"] true notesWorld))
     = calls notesWorld ++ [CallText "/notes.txt"].
Proof.
  apply (applyFileEdits_writes_only_on_success "/notes.txt" [mkEdit "alpha" "gamma"]
           true notesWorld).
  left. reflexivity.
Defined.


(** Witness of X12: the second edit needs what the first one wrote. *)
Lemma applyFileEdits_composes_witness :
  fst (applyFileEdits "/notes.txt" [mkEdit "gamma b" "delta b"] false
         (snd (applyFileEdits "/notes.txt" [mkEdit "alpha" "gamma"] false notesWorld)))
  = fst (applyFileEdits "/notes.txt"
           ([mkEdit "alpha" "gamma"] ++ [mkEdit "gamma b" "delta b"]) false notesWorld).
Proof.
  apply (applyFileEdits_composes "/notes.txt" "alpha beta" [mkEdit "alpha" "gamma"]
           [mkEdit "gamma b" "delta b"] "gamma beta" false notesWorld).
  - vm_compute. reflexivity.
  - vm_compute. reflexivity.
  - vm_compute. reflexivity.
Defined.

(** Witness of X13: the second of two edits finds nothing. *)
Lemma applyEdits_error_names_an_edit_witness :
  exists edit,
    In edit [mkEdit "alpha" "gamma"; mkEdit "delta" "x"]
    /\ Error ("Could not find exact match for edit:" +:+ nl +:+ "delta")
       = Error ("Could not find exact match for edit:" +:+ nl +:+ oldText edit)
    /\ classify (Error ("Could not find exact match for edit:" +:+ nl +:+ "delta"))
       = Some MatchNotFound.
Proof.
  apply (applyEdits_error_names_an_edit "alpha beta"
           [mkEdit "alpha" "gamma"; mkEdit "delta" "x"]).
  vm_compute. reflexivity.
Defined.

(** Witness: replacing ["beta"] by itself. *)
Lemma identity_edit_keeps_document_witness :
  applyEdit "alpha beta" (mkEdit "beta" "beta") = inr "alpha beta".
Proof.
  apply (identity_edit_keeps_document "alpha beta" "beta").
  - vm_compute. reflexivity.
  - vm_compute. reflexivity.
Defined.

(** Witness of X14: the two lines of the old text match the document at
    window 1; window 0 differs on its second line. *)
Lemma fuzzy_tier_takes_first_window_witness :
  (forall k oldLine,
      nth_error (Js.split Js.LF (normalizeLineEndings (lines ["x;"; "y;"]))) k
      = Some oldLine ->
      exists contentLine,
        nth_error (Js.split Js.LF (lines ["  x;"; "  x; "; " y;"; "z"])) (1 + k)
        = Some contentLine
        /\ Js.trim oldLine = Js.trim contentLine)
  /\ (forall j, j < 1 ->
        exists k oldLine,
          nth_error (Js.split Js.LF (normalizeLineEndings (lines ["x;"; "y;"]))) k
          = Some oldLine
          /\ forall contentLine,
              nth_error (Js.split Js.LF (lines ["  x;"; "  x; "; " y;"; "z"]))
                (j + k) = Some contentLine ->
              Js.trim oldLine <> Js.trim contentLine).
Proof.
  apply (fuzzy_tier_takes_first_window
           (lines ["  x;"; "  x; "; " y;"; "z"])
           (mkEdit (lines ["x;"; "y;"]) "z;") 1).
  vm_compute. reflexivity.
Defined.

(** Witness of X15: an old text of two lines against a document of one. *)
Lemma longer_old_text_never_matches_witness :
  applyEdit "alpha beta" (mkEdit (lines ["alpha beta"; ""]) "x")
  = inl (Error ("Could not find exact match for edit:" +:+ nl
                +:+ lines ["alpha beta"; ""])).
Proof.
  apply (longer_old_text_never_matches "alpha beta"
           (mkEdit (lines ["alpha beta"; ""]) "x")).
  vm_compute. lia.
Defined.

(** X16. With no dollar sign in the new text, an edit whose old text occurs in
    the document puts the new text in the place of the leftmost occurrence
    and leaves the rest of the document as it is. *)
Theorem exact_tier_replaces_leftmost_occurrence (doc : string) (edit : Edit) :
  Js.includes doc (normalizeLineEndings (oldText edit)) = true ->
  hasDollar (normalizeLineEndings (newText edit)) = false ->
  exists before after,
    doc = before +:+ normalizeLineEndings (oldText edit) +:+ after
    /\ (forall q, q < String.length before ->
          Js.startsWith (Js.drop q doc) (normalizeLineEndings (oldText edit)) = false)
    /\ applyEdit doc edit = inr (before +:+ normalizeLineEndings (newText edit) +:+ after).
Proof.
  intros Hin Hd. apply tierOf_exact in Hin.
  destruct (exact_tier_replaces_first_occurrence doc edit Hin Hd)
    as (p & Hp & Hdoc & Hleast & Happly).
  exists (Js.take p doc),
    (Js.drop (p + String.length (normalizeLineEndings (oldText edit))) doc).
  split; [exact Hdoc|]. split; [|exact Happly].
  intros q Hq. apply Hleast.
  rewrite length_take in Hq; [exact Hq|].
  pose proof (indexOf_bound _ _ _ Hp). lia.
Qed.

(** Witness of X16: the first of two occurrences of ["ab"] is the one replaced. *)
Lemma exact_tier_replaces_leftmost_occurrence_witness :
  exists before after,
    "xxabyyab" = before +:+ normalizeLineEndings "ab" +:+ after
    /\ (forall q, q < String.length before ->
          Js.startsWith (Js.drop q "xxabyyab") (normalizeLineEndings "ab") = false)
    /\ applyEdit "xxabyyab" (mkEdit "ab" "CD")
       = inr (before +:+ normalizeLineEndings "CD" +:+ after).
Proof.
  apply (exact_tier_replaces_leftmost_occurrence "xxabyyab" (mkEdit "ab" "CD")).
  - vm_compute. reflexivity.
  - vm_compute. reflexivity.
Defined.

(** ** The allow-list *)

Section AllowListFacts.

Variable host : Host.

Lemma startsWith_refl s : Js.startsWith s s = true.
Proof. rewrite <- (append_nil_r s) at 1. apply startsWith_append. Qed.

Lemma resolveLoop_reaches_cwd args cwd acc :
  path.isAbsolute cwd = true ->
  snd (path.resolveLoop (args ++ [cwd]) acc) = true.
Proof.
  intros Hcwd. revert acc; induction args as [|p args IH]; intros acc; simpl.
  - destruct cwd as [|c cwd]; [discriminate|]. simpl. now rewrite Hcwd.
  - destruct (String.eqb p ""); [apply IH|].
    destruct (path.isAbsolute p); [reflexivity | apply IH].
Qed.

Lemma resolve_absolute cwd args :
  path.isAbsolute cwd = true -> path.isAbsolute (path.resolve cwd args) = true.
Proof.
  intros Hcwd. unfold path.resolve.
  pose proof (resolveLoop_reaches_cwd (rev args) cwd "" Hcwd) as H.
  destruct (path.resolveLoop (rev args ++ [cwd]) "") as [resolvedPath resolvedAbsolute].
  simpl in H. subst resolvedAbsolute. apply isAbsolute_cons.
Qed.

(** With a relative path, [resolve] finds the working directory on its
    own: naming it first changes nothing. *)
Lemma resolve_with_cwd cwd p :
  path.isAbsolute cwd = true ->
  path.resolve cwd [cwd; p] = path.resolve cwd [p].
Proof.
  intros Hcwd. unfold path.resolve. simpl rev. simpl app.
  assert (String.eqb cwd "" = false) as Hne by (destruct cwd; [discriminate | reflexivity]).
  simpl. destruct (String.eqb p ""); [now rewrite Hne, Hcwd|].
  destruct (path.isAbsolute p); [reflexivity|]. now rewrite Hne, Hcwd.
Qed.

Lemma normalize_absolute p :
  path.isAbsolute p = true -> path.isAbsolute (path.normalize p) = true.
Proof.
  intros H. destruct p as [|c r]; [discriminate|].
  unfold path.normalize. rewrite H.
  change (String.eqb (String c r) "") with false. cbv iota. simpl negb.
  destruct (String.eqb _ ""); [reflexivity|].
  destruct (Js.lastIs _ _); apply isAbsolute_cons.
Qed.

(** X17. Every directory that [loadAllowedDirectories] hands over is an
    absolute path in lower case, when the working directory is absolute,
    as it always is. *)
Theorem loaded_directories_are_absolute_and_folded allowedDirectories dir :
  path.isAbsolute (cwd host) = true ->
  In dir (loadAllowedDirectories host allowedDirectories) ->
  path.isAbsolute dir = true /\ Js.toLowerCase dir = dir.
Proof.
  intros Hcwd Hin. unfold loadAllowedDirectories in Hin.
  apply in_map_iff in Hin as (configured & <- & _).
  unfold normalizeRoot, normalizePath. split.
  - rewrite isAbsolute_toLowerCase. apply normalize_absolute.
    now apply resolve_absolute.
  - apply toLowerCase_idempotent.
Qed.

(** X18. Every configured directory is allowed through its own entry: the
    path that names it passes the coarse check of [validatePath] against
    the loaded list. *)
Theorem configured_directory_passes_coarse_check allowedDirectories configured :
  path.isAbsolute (cwd host) = true ->
  In configured allowedDirectories ->
  isAllowed (normalizePath (absolute host configured))
    (loadAllowedDirectories host allowedDirectories) = true.
Proof.
  intros Hcwd Hin.
  apply (isAllowed_true _ _ (normalizeRoot host configured)).
  - unfold loadAllowedDirectories. now apply in_map.
  - unfold normalizeRoot, absolute.
    destruct (path.isAbsolute (expandHome host configured)).
    + apply startsWith_refl.
    + rewrite (resolve_with_cwd _ _ Hcwd). apply startsWith_refl.
Qed.

Lemma setAdd_In members x y :
  In y (setAdd members x) <-> In y members \/ y = x.
Proof.
  unfold setAdd. destruct (existsb (String.eqb x) members) eqn:E.
  - split; [now left|]. intros [H | Heq]; [exact H|]. subst y.
    apply existsb_exists in E as (z & Hz & Heq). apply String.eqb_eq in Heq. now subst.
  - rewrite in_app_iff. simpl. intuition.
Qed.

Lemma setAdd_NoDup members x : List.NoDup members -> List.NoDup (setAdd members x).
Proof.
  intros H. unfold setAdd. destruct (existsb (String.eqb x) members) eqn:E; [exact H|].
  apply List.NoDup_rev in H. rewrite <- (rev_involutive (members ++ [x])).
  apply List.NoDup_rev. rewrite rev_app_distr. simpl. constructor; [|exact H].
  rewrite <- in_rev. intros Hin.
  assert (existsb (String.eqb x) members = true) as Et.
  { apply existsb_exists. exists x. split; [exact Hin | apply String.eqb_refl]. }
  congruence.
Qed.

Lemma setAddAll_In members l y :
  In y (setAddAll members l) <-> In y members \/ In y l.
Proof.
  revert members; induction l as [|x l IH]; intros members; simpl.
  - intuition.
  - rewrite IH, setAdd_In. intuition.
Qed.

Lemma setAddAll_NoDup members l :
  List.NoDup members -> List.NoDup (setAddAll members l).
Proof.
  revert members; induction l as [|x l IH]; intros members H; simpl; [exact H|].
  now apply IH, setAdd_NoDup.
Qed.

Lemma setAddAll_known members l :
  (forall x, In x l -> In x members) -> setAddAll members l = members.
Proof.
  revert members; induction l as [|x l IH]; intros members H; simpl; [reflexivity|].
  assert (setAdd members x = members) as ->.
  { unfold setAdd.
    assert (existsb (String.eqb x) members = true) as ->; [|reflexivity].
    apply existsb_exists. exists x. split; [apply H; now left | apply String.eqb_refl]. }
  apply IH. intros y Hy. apply H. now right.
Qed.

Lemma setAddAll_app members l1 l2 :
  setAddAll members (l1 ++ l2) = setAddAll (setAddAll members l1) l2.
Proof.
  revert members; induction l1 as [|x l1 IH]; intros members; simpl; [reflexivity|].
  apply IH.
Qed.

Lemma setAddAll_fresh members l :
  List.NoDup (members ++ l) -> setAddAll members l = members ++ l.
Proof.
  revert members; induction l as [|x l IH]; intros members H; simpl.
  - now rewrite app_nil_r.
  - assert (setAdd members x = members ++ [x]) as ->.
    { unfold setAdd.
      assert (existsb (String.eqb x) members = false) as ->; [|reflexivity].
      destruct (existsb (String.eqb x) members) eqn:E; [|reflexivity].
      apply existsb_exists in E as (z & Hz & Heq). apply String.eqb_eq in Heq. subst z.
      apply List.NoDup_remove_2 in H. exfalso. apply H. apply in_app_iff. now left. }
    rewrite IH; rewrite <- app_assoc; [reflexivity | exact H].
Qed.

(** X19. [addAllowedDirectories] stores each directory once: the list has
    no duplicates, holds exactly the directories that were configured and
    the added ones in their normalized form, and never loses a directory
    that was configured. *)
Theorem addAllowedDirectories_merges allowedDirectories directories :
  List.NoDup (addAllowedDirectories host allowedDirectories directories)
  /\ (forall dir,
        In dir (addAllowedDirectories host allowedDirectories directories)
        <-> In dir allowedDirectories
            \/ exists added, In added directories /\ dir = normalizeRoot host added).
Proof.
  unfold addAllowedDirectories. split.
  - apply setAddAll_NoDup. constructor.
  - intros dir. rewrite setAddAll_In, in_app_iff, in_map_iff. simpl. split.
    + intros [[]|[H|(added & <- & H)]]; [now left | right; eauto].
    + intros [H|(added & H & ->)]; right; [now left | right; eauto].
Qed.

(** X20. Adding the same directories a second time changes nothing. *)
Theorem addAllowedDirectories_idempotent allowedDirectories directories :
  addAllowedDirectories host
    (addAllowedDirectories host allowedDirectories directories) directories
  = addAllowedDirectories host allowedDirectories directories.
Proof.
  unfold addAllowedDirectories.
  set (stored := setAddAll [] (allowedDirectories ++ map (normalizeRoot host) directories)).
  rewrite setAddAll_app.
  assert (setAddAll [] stored = stored) as ->.
  { rewrite setAddAll_fresh; [reflexivity|]. simpl.
    apply setAddAll_NoDup. constructor. }
  apply setAddAll_known. intros x Hx. subst stored.
  apply setAddAll_In. right. apply in_app_iff. now right.
Qed.

End AllowListFacts.

(** Witness of X17: the configured directory [~/Projects]. *)
Lemma loaded_directories_are_absolute_and_folded_witness :
  path.isAbsolute "/home/u/projects" = true
  /\ Js.toLowerCase "/home/u/projects" = "/home/u/projects".
Proof.
  apply (loaded_directories_are_absolute_and_folded demoHost ["~/Projects"]
           "/home/u/projects").
  - reflexivity.
  - vm_compute. now left.
Defined.

(** Witness of X18: the configured directory [Data/Foo], relative to the
    working directory. *)
Lemma configured_directory_passes_coarse_check_witness :
  isAllowed (normalizePath (absolute demoHost "Data/Foo"))
    (loadAllowedDirectories demoHost ["/srv"; "Data/Foo"]) = true.
Proof.
  apply (configured_directory_passes_coarse_check demoHost ["/srv"; "Data/Foo"]
           "Data/Foo").
  - reflexivity.
  - right. now left.
Defined.

(** ** Permissions *)

Section Permissions.

Local Open Scope N_scope.

Lemma octalDigits_fuel fuel1 fuel2 n :
  (N.to_nat (N.log2 n) < fuel1)%nat -> (N.to_nat (N.log2 n) < fuel2)%nat ->
  octalDigits fuel1 n = octalDigits fuel2 n.
Proof.
  revert fuel2 n; induction fuel1 as [|fuel1 IH]; intros [|fuel2] n H1 H2;
    try lia.
  simpl. destruct (N.ltb_spec n 8) as [Hlt|Hge]; [reflexivity|].
  assert (3 <= N.log2 n) as Hlog.
  { change 3 with (N.log2 8). now apply N.log2_le_mono. }
  assert (N.log2 (n / 8) = N.log2 n - 3) as Hdiv.
  { change 8 with (2 ^ 3). rewrite <- N.shiftr_div_pow2. apply N.log2_shiftr. }
  f_equal. apply IH; rewrite Hdiv; lia.
Qed.

Lemma toOctal_small n : n < 8 -> toOctal n = octalDigit n.
Proof.
  intros H. unfold toOctal. simpl.
  now destruct (N.ltb_spec n 8) as [_|Hge]; [|lia].
Qed.

Lemma toOctal_step n :
  8 <= n -> toOctal n = toOctal (n / 8) +:+ octalDigit (n mod 8).
Proof.
  intros H. unfold toOctal at 1. simpl.
  destruct (N.ltb_spec n 8) as [Hlt|_]; [lia|].
  f_equal. unfold toOctal.
  assert (3 <= N.log2 n) as Hlog.
  { change 3 with (N.log2 8). now apply N.log2_le_mono. }
  assert (N.log2 (n / 8) = N.log2 n - 3) as Hdiv.
  { change 8 with (2 ^ 3). rewrite <- N.shiftr_div_pow2. apply N.log2_shiftr. }
  apply octalDigits_fuel; rewrite Hdiv; lia.
Qed.

Lemma length_drop k s : String.length (Js.drop k s) = (String.length s - k)%nat.
Proof.
  revert s; induction k as [|k IH]; intros [|c s]; simpl; try lia. apply IH.
Qed.

(** The permissions of a file are the last three octal digits of its
    mode, the read, write and execute bits of owner, group and others. A
    mode carries its file type above these bits, so it is never below
    [0o100]. *)
Lemma permissions_are_the_low_nine_bits mode :
  64 <= mode ->
  permissionsOf mode
  = octalDigit ((mode / 64) mod 8) +:+ octalDigit ((mode / 8) mod 8)
    +:+ octalDigit (mode mod 8).
Proof.
  intros H. unfold permissionsOf.
  assert (8 <= mode / 8) as H8.
  { change 8 with (64 / 8) at 1. apply N.Div0.div_le_mono. exact H. }
  assert (mode / 8 / 8 = mode / 64) as H64 by (rewrite N.Div0.div_div; reflexivity).
  assert (exists pre, toOctal (mode / 64) = pre +:+ octalDigit ((mode / 64) mod 8))
    as [pre Hpre].
  { destruct (N.ltb_spec (mode / 64) 8) as [Hlt|Hge].
    - exists "". rewrite N.mod_small by exact Hlt. now apply toOctal_small.
    - eexists. now apply toOctal_step. }
  rewrite (toOctal_step mode) by lia.
  rewrite (toOctal_step (mode / 8)) by exact H8.
  rewrite H64, Hpre, !append_assoc.
  unfold lastUnits. rewrite length_append.
  replace (String.length pre + _ - 3)%nat with (String.length pre) by (simpl; lia).
  apply drop_append_length.
Qed.

(** The permissions never have more than three digits. *)
Lemma permissions_length mode : (String.length (permissionsOf mode) <= 3)%nat.
Proof. unfold permissionsOf, lastUnits. rewrite length_drop. lia. Qed.

End Permissions.

(** X21. [getFileStats] asks [stat] once and reports, beside the size and the
    times, the kind of the entry and its permissions: the last three octal
    digits of the mode, the read, write and execute bits of owner, group
    and others. *)
Theorem getFileStats_reports_permission_bits (filePath : string) (stats : Stats)
  (d : Disk) :
  statOf d !! filePath = Some stats ->
  (64 <= st_mode stats)%N ->
  exists info,
    getFileStats filePath d = (inr info, logDisk (CallStat filePath) d)
    /\ fi_permissions info
       = octalDigit ((st_mode stats / 64) mod 8)
         +:+ octalDigit ((st_mode stats / 8) mod 8)
         +:+ octalDigit (st_mode stats mod 8)
    /\ fi_size info = st_size stats
    /\ fi_isDirectory info = isDirectory stats
    /\ fi_isFile info = isFile stats
    /\ (fi_isDirectory info && fi_isFile info = false).
Proof.
  intros Hs Hmode. unfold getFileStats, bindT, stat. rewrite Hs.
  eexists. split; [reflexivity|]. simpl.
  split; [now apply permissions_are_the_low_nine_bits|].
  repeat split. unfold isDirectory, isFile. now destruct (st_kind stats).
Qed.

(** Witness of X21: the file [/allowed/a.txt], of mode [0o100644]. *)
Lemma getFileStats_reports_permission_bits_witness :
  exists info,
    getFileStats "/allowed/a.txt" treeDisk
    = (inr info, logDisk (CallStat "/allowed/a.txt") treeDisk)
    /\ fi_permissions info
       = octalDigit ((st_mode (fileStats 10) / 64) mod 8)
         +:+ octalDigit ((st_mode (fileStats 10) / 8) mod 8)
         +:+ octalDigit (st_mode (fileStats 10) mod 8)
    /\ fi_size info = st_size (fileStats 10)
    /\ fi_isDirectory info = isDirectory (fileStats 10)
    /\ fi_isFile info = isFile (fileStats 10)
    /\ (fi_isDirectory info && fi_isFile info = false).
Proof.
  apply (getFileStats_reports_permission_bits "/allowed/a.txt" (fileStats 10) treeDisk).
  - vm_compute. reflexivity.
  - vm_compute. discriminate.
Defined.

Example permissions_of_regular_file : permissionsOf 33188 = "644".
Proof. reflexivity. Qed.

(** ** [searchFiles] *)

Section SearchFacts.

Variable host : Host.
Variable relative : string -> string -> string.
Variable minimatch : string -> string -> bool.
Variables (rootPath pattern : string) (allowedDirectories excludePatterns : list string).

Local Abbreviation searchEntries' :=
  (searchEntries host relative minimatch rootPath pattern allowedDirectories
     excludePatterns).
Local Abbreviation search' :=
  (search host relative minimatch rootPath pattern allowedDirectories excludePatterns).
Local Abbreviation shouldExclude' := (shouldExclude relative minimatch rootPath excludePatterns).
Local Abbreviation found := (found host pattern allowedDirectories).

Lemma validatePath_success_coarse requestedPath w validPath w' :
  validatePath host requestedPath allowedDirectories w = (inr validPath, w') ->
  isAllowed (normalizePath (absolute host requestedPath)) allowedDirectories = true.
Proof.
  intros H. unfold validatePath in H. cbv zeta in H.
  destruct (isAllowed _ _); [reflexivity | discriminate].
Qed.

Lemma searchEntries_found recurse currentPath entries st out st' :
  (forall p s o s', recurse p s = Some (o, s') -> Forall found (fst s) ->
                    Forall found (fst s')) ->
  searchEntries' recurse currentPath entries st = Some (out, st') ->
  Forall found (fst st) -> Forall found (fst st').
Proof.
  intros Hrec. revert st; induction entries as [|entry rest IH];
    intros [results d] H Hres; simpl in H.
  - now injection H as _ <-.
  - unfold liftIO in H.
    destruct (validatePath host (path.join [currentPath; entry]) allowedDirectories
                (fsWorld d)) as [[e|validPath] w1] eqn:Hv.
    + now injection H as _ <-.
    + destruct (shouldExclude' (path.join [currentPath; entry])).
      * now injection H as _ <-.
      * set (results1 := if Js.includes (Js.toLowerCase entry) (Js.toLowerCase pattern)
                         then results ++ [path.join [currentPath; entry]]
                         else results) in *.
        assert (Forall found results1) as Hres1.
        { subst results1.
          destruct (Js.includes (Js.toLowerCase entry) (Js.toLowerCase pattern)) eqn:Hi;
            [|exact Hres].
          apply Forall_app. split; [exact Hres|]. constructor; [|constructor].
          split; [now apply (validatePath_success_coarse _ _ _ _ Hv) | eauto]. }
        destruct (stat _ _) as [[e|stats] d2].
        -- now injection H as _ <-.
        -- destruct (isDirectory stats).
           ++ destruct (recurse _ _) as [[[e|u] st1]|] eqn:Hr; [| |discriminate].
              ** injection H as _ <-. now apply (Hrec _ _ _ _ Hr).
              ** apply (IH _ H). now apply (Hrec _ _ _ _ Hr).
           ++ now apply (IH _ H).
Qed.

Lemma search_found depth currentPath st out st' :
  search' depth currentPath st = Some (out, st') ->
  Forall found (fst st) -> Forall found (fst st').
Proof.
  revert currentPath st out st'; induction depth as [|depth IH];
    intros currentPath [results d] out st' H Hres; simpl in H; [discriminate|].
  destruct (readdir currentPath d) as [[e|entries] d1].
  - now injection H as _ <-.
  - apply (searchEntries_found _ _ _ _ _ _ (fun p s o s' => IH p s o s') H Hres).
Qed.


(** X23. An excluded entry ends the reading of its directory: the
    entries listed after it are neither matched nor searched. *)
Theorem excluded_entry_ends_the_directory
  recurse currentPath (before : list string) entry (after : list string) st :
  shouldExclude' (path.join [currentPath; entry]) = true ->
  searchEntries' recurse currentPath (before ++ entry :: after) st
  = searchEntries' recurse currentPath (before ++ [entry]) st.
Proof.
  intros Hex. revert st; induction before as [|b before IH]; intros [results d].
  - simpl. destruct (liftIO _ d) as [[e|validPath] d1]; [reflexivity|].
    now rewrite Hex.
  - simpl. destruct (liftIO _ d) as [[e|validPath] d1]; [reflexivity|].
    destruct (shouldExclude' (path.join [currentPath; b])); [reflexivity|].
    destruct (stat _ _) as [[e|stats] d2]; [reflexivity|].
    destruct (isDirectory stats); [|apply IH].
    destruct (recurse _ _) as [[[e|u] st1]|]; try reflexivity. apply IH.
Qed.

Lemma validatePath_keeps_realpaths requestedPath w :
  realpathOf (snd (validatePath host requestedPath allowedDirectories w))
  = realpathOf w.
Proof.
  unfold validatePath, validateParent, tryCatch, bind, realpath, throw, ret.
  cbv zeta. destruct (negb _); [reflexivity|].
  destruct (realpathOf w !! _); simpl.
  - destruct (negb _); simpl; [|reflexivity].
    destruct (realpathOf w !! _); simpl; [|reflexivity].
    now destruct (negb _).
  - destruct (realpathOf w !! _); simpl; [|reflexivity].
    now destruct (negb _).
Qed.

Lemma searchEntries_tables recurse currentPath entries st out st' :
  (forall p s o s', recurse p s = Some (o, s') -> tables (snd s') = tables (snd s)) ->
  searchEntries' recurse currentPath entries st = Some (out, st') ->
  tables (snd st') = tables (snd st).
Proof.
  intros Hrec. revert st; induction entries as [|entry rest IH];
    intros [results d] H; simpl in H.
  - now injection H as _ <-.
  - unfold liftIO in H.
    pose proof (validatePath_keeps_realpaths (path.join [currentPath; entry])
                  (fsWorld d)) as Hk.
    destruct (validatePath host (path.join [currentPath; entry]) allowedDirectories
                (fsWorld d)) as [[e|validPath] w1]; simpl in Hk.
    + injection H as _ <-. unfold tables. simpl. now rewrite Hk.
    + destruct (shouldExclude' _).
      * injection H as _ <-. unfold tables. simpl. now rewrite Hk.
      * unfold stat in H. simpl in H.
        destruct (statOf d !! path.join [currentPath; entry]) as [stats|].
        -- destruct (isDirectory stats).
           ++ destruct (recurse _ _) as [[[e|u] st1]|] eqn:Hr; [| |discriminate].
              ** injection H as _ <-. rewrite (Hrec _ _ _ _ Hr).
                 unfold tables. simpl. now rewrite Hk.
              ** rewrite (IH _ H), (Hrec _ _ _ _ Hr).
                 unfold tables. simpl. now rewrite Hk.
           ++ rewrite (IH _ H). unfold tables. simpl. now rewrite Hk.
        -- injection H as _ <-. unfold tables. simpl. now rewrite Hk.
Qed.

Lemma search_tables depth currentPath st out st' :
  search' depth currentPath st = Some (out, st') ->
  tables (snd st') = tables (snd st).
Proof.
  revert currentPath st out st'; induction depth as [|depth IH];
    intros currentPath [results d] out st' H; simpl in H; [discriminate|].
  unfold readdir in H. destruct (entriesOf d !! currentPath) as [entries|].
  - now rewrite (searchEntries_tables _ _ _ _ _ _ (fun p s o s' => IH p s o s') H).
  - now injection H as _ <-.
Qed.

Lemma searchEntries_total recurse currentPath entries st :
  (forall p s o s', recurse p s = Some (o, s') -> tables (snd s') = tables (snd s)) ->
  (forall entry stats s,
      In entry entries ->
      statOf (snd st) !! path.join [currentPath; entry] = Some stats ->
      isDirectory stats = true ->
      tables (snd s) = tables (snd st) ->
      recurse (path.join [currentPath; entry]) s <> None) ->
  searchEntries' recurse currentPath entries st <> None.
Proof.
  intros Hrec. revert st; induction entries as [|entry rest IH];
    intros [results d] Hsub; simpl; [discriminate|].
  unfold liftIO.
  pose proof (validatePath_keeps_realpaths (path.join [currentPath; entry])
                (fsWorld d)) as Hk.
  destruct (validatePath host (path.join [currentPath; entry]) allowedDirectories
              (fsWorld d)) as [[e|validPath] w1]; simpl in Hk; [discriminate|].
  destruct (shouldExclude' _); [discriminate|].
  unfold stat. simpl.
  destruct (statOf d !! path.join [currentPath; entry]) as [stats|] eqn:Hst;
    [|discriminate].
  set (results1 := if Js.includes _ _ then _ else _).
  set (d2 := logDisk _ _).
  assert (tables d2 = tables d) as Ht by (unfold tables; simpl; now rewrite Hk).
  assert (forall st1, tables (snd st1) = tables d ->
                      searchEntries' recurse currentPath rest st1 <> None) as Hrest.
  { intros st1 Ht1. apply IH. intros entry' stats' s Hin Hs Hd Hts.
    apply (Hsub entry' stats' s); [now right | | exact Hd |].
    - simpl. unfold tables in Ht1. now injection Ht1 as <- _ _.
    - simpl. now rewrite Hts, Ht1. }
  destruct (isDirectory stats) eqn:Hd.
  - destruct (recurse _ _) as [[[e|u] st1]|] eqn:Hr.
    + discriminate.
    + apply Hrest. now rewrite (Hrec _ _ _ _ Hr).
    + exfalso. apply (Hsub entry stats (results1, d2)); auto. now left.
  - now apply Hrest.
Qed.

Lemma search_total depth currentPath st :
  shallow depth (statOf (snd st)) (entriesOf (snd st)) currentPath ->
  search' depth currentPath st <> None.
Proof.
  revert currentPath st; induction depth as [|depth IH];
    intros currentPath [results d] Hsh; simpl in *; [contradiction|].
  unfold readdir. destruct (entriesOf d !! currentPath) as [entries|] eqn:He;
    [|discriminate].
  apply searchEntries_total.
  - intros p s o s'. apply search_tables.
  - simpl. intros entry stats s Hin Hst Hd Hts. apply IH.
    unfold tables in Hts. simpl in Hts. injection Hts as -> -> _.
    now apply (Hsh entries entry stats).
Qed.

(** X24. [searchFiles] comes to an end on every tree of bounded depth:
    with as many nested calls allowed as the tree below the root is deep,
    it returns its results or rejects because the root cannot be read. *)
Theorem searchFiles_terminates depth d :
  shallow depth (statOf d) (entriesOf d) rootPath ->
  exists outcome,
    searchFiles host relative minimatch rootPath pattern allowedDirectories
      excludePatterns depth d = Some outcome.
Proof.
  intros Hsh. unfold searchFiles.
  pose proof (search_total depth rootPath ([], d) Hsh) as H.
  destruct (search' depth rootPath ([], d)) as [[[e|u] [rs d1]]|]; eauto.
  contradiction.
Qed.

End SearchFacts.

(** ** The tool handlers *)

Section ToolFacts.

Variable host : Host.
Variable relative : string -> string -> string.
Variable minimatch : string -> string -> bool.
Variable zodError : string -> option (list (string * Json)) -> string.
Variable createTwoFilesPatch : string -> string -> string -> string -> string -> string -> string.
Variable showNumber : N -> string.
Variable showDate : Z -> string.
Variable systemErrorMessage : string -> string -> string.
Variable allowedDirectories : list string.

Local Abbreviation handleTool' :=
  (handleTool host relative minimatch zodError createTwoFilesPatch showNumber
     showDate systemErrorMessage allowedDirectories).

Lemma disk_eta d : mkDisk (fsWorld d) (statOf d) (entriesOf d) (diskCalls d) = d.
Proof. now destruct d. Qed.

Lemma liftIO_validatePath_denied p d :
  isAllowed (normalizePath (absolute host p)) allowedDirectories = false ->
  exists message,
    liftIO (validatePath host p allowedDirectories) d = (inl (Error message), d)
    /\ classify (Error message) = Some AccessDenied.
Proof.
  intros H. unfold liftIO, validatePath. cbv zeta. rewrite H. simpl.
  rewrite disk_eta. eexists. split; reflexivity.
Qed.

Lemma neverNull_bind {A} (m : Task A) (k : A -> Task (option string)) :
  (forall a, neverNull (k a)) -> neverNull (bindT m k).
Proof.
  intros H d d'. unfold bindT. destruct (m d) as [[e|a] d1]; [discriminate|].
  apply H.
Qed.

Lemma neverNull_ret x : neverNull (retT (Some x)).
Proof. intros d d'. discriminate. Qed.

Lemma neverNull_throw e : neverNull (throwT e).
Proof. intros d d'. discriminate. Qed.

(** X25. [handleTool] returns [null] for the names that the array [tools]
    does not declare, without touching anything, and for those names
    only: a declared tool returns a content or throws. *)
Theorem handleTool_null_iff_undeclared depth name args d :
  (~ In name toolNames -> handleTool' depth name args d = Some (inr None, d))
  /\ (In name toolNames ->
      forall d', handleTool' depth name args d <> Some (inr None, d')).
Proof.
  split.
  - intros H. unfold handleTool.
    repeat match goal with
           | |- context [String.eqb name ?t] =>
               destruct (String.eqb_spec name t) as [->|_];
               [exfalso; apply H; simpl; tauto|]
           end.
    reflexivity.
  - intros H d' Hnull. unfold toolNames in H. simpl in H.
    assert (forall (t : Task (option string)), neverNull t ->
               Some (t d) = Some (inr None, d') -> False) as Hnever.
    { intros t Ht [= E]. now apply (Ht d d'). }
    repeat (destruct H as [<-|H]); try contradiction;
      unfold handleTool in Hnull; simpl in Hnull.
    + revert Hnull. apply Hnever. destruct (parsePathArgs args).
      * repeat (apply neverNull_bind; intros). apply neverNull_ret.
      * apply neverNull_throw.
    + revert Hnull. apply Hnever. destruct (parseReadMultipleFilesArgs args).
      * repeat (apply neverNull_bind; intros). apply neverNull_ret.
      * apply neverNull_throw.
    + revert Hnull. apply Hnever. destruct (parseWriteFileArgs args) as [[p c]|].
      * repeat (apply neverNull_bind; intros). apply neverNull_ret.
      * apply neverNull_throw.
    + revert Hnull. apply Hnever.
      destruct (parseEditFileArgs args) as [[[p edits] dryRun]|].
      * repeat (apply neverNull_bind; intros). apply neverNull_ret.
      * apply neverNull_throw.
    + revert Hnull. apply Hnever. destruct (parsePathArgs args).
      * repeat (apply neverNull_bind; intros). apply neverNull_ret.
      * apply neverNull_throw.
    + revert Hnull. apply Hnever. destruct (parsePathArgs args).
      * repeat (apply neverNull_bind; intros). apply neverNull_ret.
      * apply neverNull_throw.
    + revert Hnull. apply Hnever. destruct (parseMoveFileArgs args) as [[src dst]|].
      * repeat (apply neverNull_bind; intros). apply neverNull_ret.
      * apply neverNull_throw.
    + destruct (parseSearchFilesArgs args) as [[[p pat] excl]|]; [|discriminate].
      destruct (liftIO _ d) as [[e|validPath] d1]; [discriminate|].
      destruct (searchFiles _ _ _ _ _ _ _ _ _) as [[[e|results] d2]|]; discriminate.
    + revert Hnull. apply Hnever. destruct (parsePathArgs args).
      * repeat (apply neverNull_bind; intros). apply neverNull_ret.
      * apply neverNull_throw.
    + discriminate.
Qed.

(** X26. A tool that takes a [path] does nothing on a path that fails the
    coarse check of the path guard: the call throws, an AccessDenied
    error or, when other arguments are malformed, an ArgumentInvalid
    error, and the disk, the logs of its calls included, is what it
    was. *)
Theorem path_tools_refuse_outside_paths depth name fields p d :
  In name pathTools ->
  asString (field "path" fields) = Some p ->
  isAllowed (normalizePath (absolute host p)) allowedDirectories = false ->
  exists e,
    handleTool' depth name (Some fields) d = Some (inl e, d)
    /\ (classify e = Some AccessDenied \/ classify e = Some ArgumentInvalid).
Proof.
  intros Hin Hp Hout.
  destruct (liftIO_validatePath_denied p d Hout) as (message & Hv & Hc).
  unfold pathTools in Hin. simpl in Hin.
  repeat (destruct Hin as [<-|Hin]); try contradiction;
    unfold handleTool; cbn [String.eqb Ascii.eqb Bool.eqb].
  - unfold parsePathArgs. rewrite Hp. unfold bindT. rewrite Hv. eauto.
  - unfold parseWriteFileArgs. rewrite Hp.
    destruct (asString (field "content" fields)).
    + unfold bindT. rewrite Hv. eauto.
    + eexists. split; [reflexivity | now right].
  - unfold parseEditFileArgs. rewrite Hp.
    destruct (match field "edits" fields with
              | Some (JArray items) => asEdits items
              | _ => None
              end);
      [destruct (match field "dryRun" fields with
                 | None => Some false
                 | Some (JBool b) => Some b
                 | Some _ => None
                 end)|].
    + unfold bindT. rewrite Hv. eauto.
    + eexists. split; [reflexivity | now right].
    + eexists. split; [reflexivity | now right].
  - unfold parsePathArgs. rewrite Hp. unfold bindT. rewrite Hv. eauto.
  - unfold parsePathArgs. rewrite Hp. unfold bindT. rewrite Hv. eauto.
  - unfold parseSearchFilesArgs. rewrite Hp.
    destruct (asString (field "pattern" fields));
      [destruct (match field "excludePatterns" fields with
                 | None => Some []
                 | Some v => asStringArray (Some v)
                 end)|].
    + rewrite Hv. eauto.
    + eexists. split; [reflexivity | now right].
    + eexists. split; [reflexivity | now right].
  - unfold parsePathArgs. rewrite Hp. unfold bindT. rewrite Hv. eauto.
Qed.

(** What [validatePath] answers for an existing path that resolves inside
    a root, on the world of a disk. *)
Lemma liftIO_validatePath_resolved p d realPath :
  isAllowed (normalizePath (absolute host p)) allowedDirectories = true ->
  realpathOf (fsWorld d) !! absolute host p = Some realPath ->
  isAllowed (normalizePath realPath) allowedDirectories = true ->
  liftIO (validatePath host p allowedDirectories) d
  = (inr realPath,
     mkDisk (logCall (CallRealpath (absolute host p)) (fsWorld d))
       (statOf d) (entriesOf d) (diskCalls d)).
Proof.
  intros Hc Hr Hin. unfold liftIO.
  now rewrite (validatePath_resolved _ _ _ _ _ Hc Hr Hin).
Qed.



(** X30. The patch that [edit_file] returns compares the result with the
    file as it is after the edits: on a dry run that is the file as it
    was, on any other run it is the result itself, just written. *)
Theorem edit_file_patch_inputs depth args p edits dryRun realPath raw result d :
  parseEditFileArgs args = Some (p, edits, dryRun) ->
  isAllowed (normalizePath (absolute host p)) allowedDirectories = true ->
  realpathOf (fsWorld d) !! absolute host p = Some realPath ->
  isAllowed (normalizePath realPath) allowedDirectories = true ->
  files (fsWorld d) !! realPath = Some raw ->
  applyEdits (normalizeLineEndings raw) edits = inr result ->
  exists d',
    handleTool' depth "fs:edit_file" args d
    = Some (inr (Some (createTwoFilesPatch p p (if dryRun then raw else result)
                         result "original" "modified")), d').
Proof.
  intros Hargs Hc Hr Hin Hf Hres.
  unfold handleTool. simpl. rewrite Hargs. unfold bindT.
  rewrite (liftIO_validatePath_resolved _ _ _ Hc Hr Hin).
  unfold liftIO at 1. simpl. destruct dryRun.
  - rewrite (applyFileEdits_dry_run _ raw _ result); [|exact Hf|exact Hres].
    unfold liftIO, readText. simpl. rewrite Hf. eexists. reflexivity.
  - rewrite (applyFileEdits_written _ raw _ result); [|exact Hf|exact Hres].
    unfold liftIO, readText. simpl. rewrite lookup_insert_eq. eexists. reflexivity.
Qed.

(** X27. Without arguments every declared tool but
    [list_allowed_directories] throws an ArgumentInvalid error at once and
    leaves the disk as it was. *)
Theorem tools_reject_missing_arguments depth name d :
  In name toolNames -> name <> "fs:list_allowed_directories" ->
  exists e,
    handleTool' depth name None d = Some (inl e, d)
    /\ classify e = Some ArgumentInvalid.
Proof.
  intros Hin Hne. unfold toolNames in Hin. simpl in Hin.
  repeat (destruct Hin as [<-|Hin]); try contradiction;
    eexists; (split; [reflexivity | reflexivity]).
Qed.

End ToolFacts.



(** Witness of X23: with [sub] excluded, [z.txt], listed after it, is not
    reached. *)
Lemma excluded_entry_ends_the_directory_witness :
  searchEntries demoHost relativeBelow matchWholePath "/allowed" "t" ["/allowed"]
    ["sub"]
    (search demoHost relativeBelow matchWholePath "/allowed" "t" ["/allowed"] ["sub"] 1)
    "/allowed" (["a.txt"] ++ "sub" :: ["z.txt"]) ([], treeDisk)
  = searchEntries demoHost relativeBelow matchWholePath "/allowed" "t" ["/allowed"]
      ["sub"]
      (search demoHost relativeBelow matchWholePath "/allowed" "t" ["/allowed"] ["sub"] 1)
      "/allowed" (["a.txt"] ++ ["sub"]) ([], treeDisk).
Proof.
  apply (excluded_entry_ends_the_directory demoHost relativeBelow matchWholePath
           "/allowed" "t" ["/allowed"] ["sub"]).
  vm_compute. reflexivity.
Defined.

(** Witness of X24: the tree below [/allowed] is two directories deep. *)
Lemma searchFiles_terminates_witness :
  exists outcome,
    searchFiles demoHost relativeBelow matchWholePath "/allowed" "a" ["/allowed"] []
      2 treeDisk = Some outcome.
Proof.
  apply (searchFiles_terminates demoHost relativeBelow matchWholePath "/allowed" "a"
           ["/allowed"] [] 2 treeDisk).
  intros names name st Hn Hin Hs Hd. vm_compute in Hn. injection Hn as <-.
  destruct Hin as [<-|[<-|[<-|[]]]]; vm_compute in Hs; injection Hs as <-;
    try discriminate Hd.
  intros names' name' st' Hn' Hin' Hs' Hd'. vm_compute in Hn'. injection Hn' as <-.
  destruct Hin' as [<-|[]]. vm_compute in Hs'. injection Hs' as <-. discriminate Hd'.
Defined.

(** Witness of X25: no tool is called [fs:delete_file]. *)
Lemma handleTool_null_iff_undeclared_witness :
  handleTool demoHost relativeBelow matchWholePath plainZodError plainPatch
    plainNumber plainDate plainSystemError ["/allowed"] 1 "fs:delete_file" None treeDisk
  = Some (inr None, treeDisk).
Proof.
  apply (proj1 (handleTool_null_iff_undeclared demoHost relativeBelow matchWholePath
                  plainZodError plainPatch plainNumber plainDate plainSystemError
                  ["/allowed"] 1 "fs:delete_file" None treeDisk)).
  vm_compute. intros H. repeat (destruct H as [H|H]; [discriminate H|]). exact H.
Defined.

(** Witness of X26: [write_file] on [/etc/passwd]. *)
Lemma path_tools_refuse_outside_paths_witness :
  exists e,
    handleTool demoHost relativeBelow matchWholePath plainZodError plainPatch
      plainNumber plainDate plainSystemError ["/allowed"] 1 "fs:write_file"
      (Some [("path", JString "/etc/passwd"); ("content", JString "x")]) treeDisk
    = Some (inl e, treeDisk)
    /\ (classify e = Some AccessDenied \/ classify e = Some ArgumentInvalid).
Proof.
  apply (path_tools_refuse_outside_paths demoHost relativeBelow matchWholePath
           plainZodError plainPatch plainNumber plainDate plainSystemError
           ["/allowed"] 1 "fs:write_file"
           [("path", JString "/etc/passwd"); ("content", JString "x")] "/etc/passwd"
           treeDisk).
  - vm_compute. tauto.
  - reflexivity.
  - vm_compute. reflexivity.
Defined.



(** Witness of X30: one edit on [/allowed/a.txt], not a dry run: both texts of
    the patch are the result. *)
Lemma edit_file_patch_inputs_witness :
  exists d',
    handleTool demoHost relativeBelow matchWholePath plainZodError plainPatch
      plainNumber plainDate plainSystemError ["/allowed"] 1 "fs:edit_file"
      (Some [("path", JString "/allowed/a.txt");
             ("edits", JArray [JObject [("oldText", JString "alpha");
                                        ("newText", JString "gamma")]])])
      treeDisk
    = Some (inr (Some (plainPatch "/allowed/a.txt" "/allowed/a.txt"
                         (if false then "alpha beta" else "gamma beta")
                         "gamma beta" "original" "modified")), d').
Proof.
  apply (edit_file_patch_inputs demoHost relativeBelow matchWholePath plainZodError
           plainPatch plainNumber plainDate plainSystemError ["/allowed"] 1
           (Some [("path", JString "/allowed/a.txt");
                  ("edits", JArray [JObject [("oldText", JString "alpha");
                                             ("newText", JString "gamma")]])])
           "/allowed/a.txt" [mkEdit "alpha" "gamma"] false "/allowed/a.txt"
           "alpha beta" "gamma beta" treeDisk).
  - vm_compute. reflexivity.
  - vm_compute. reflexivity.
  - vm_compute. reflexivity.
  - vm_compute. reflexivity.
  - vm_compute. reflexivity.
  - vm_compute. reflexivity.
Defined.

(** Witness of X27: [read_file] without arguments. *)
Lemma tools_reject_missing_arguments_witness :
  exists e,
    handleTool demoHost relativeBelow matchWholePath plainZodError plainPatch
      plainNumber plainDate plainSystemError ["/allowed"] 1 "fs:read_file" None treeDisk
    = Some (inl e, treeDisk)
    /\ classify e = Some ArgumentInvalid.
Proof.
  apply (tools_reject_missing_arguments demoHost relativeBelow matchWholePath
           plainZodError plainPatch plainNumber plainDate plainSystemError
           ["/allowed"] 1 "fs:read_file" treeDisk).
  - vm_compute. tauto.
  - discriminate.
Defined.
